(** * youtube-summarization: the transcript pipeline of [app.py]

    A shallow embedding of [app.py] (video-id extraction, the transcript
    fallback chain, the translator, the retrying summarizer and the
    [/summary] handler) together with the properties its specification
    states about them.

    Conventions.
    - A Python [str] is a Rocq [string] holding its UTF-8 encoding; every
      character the program itself inspects is ASCII, so byte-wise and
      character-wise readings agree wherever the code looks.
    - Library calls whose answer depends on the outside world (the
      transcript service, HTTP) are parameters of a section; they thread a
      world state and the calls made are recorded as a trace of events.
    - The library functions [get_video_id] relies on ([urlparse],
      [parse_qs], [unquote], [re.search]) are embedded after CPython 3.11,
      with the [ValueError]s [urlsplit] raises for a network location it
      rejects; the two calls [urlsplit] makes into other modules
      ([ipaddress.ip_address], [unicodedata.normalize]) are parameters.
    - The exception classes of [youtube_transcript_api] are built by their
      own constructors: [CouldNotRetrieveTranscript(x)] takes [x] as the
      video id of its message, and [NoTranscriptFound] needs three
      arguments. *)

From Stdlib Require Import String Ascii List ZArith Lia Bool Arith.
From Stdlib Require Import DecimalString SpecFloat.
Import ListNotations.
Open Scope string_scope.
Open Scope nat_scope.

(* ================================================================== *)
(** * Python strings *)
(* ================================================================== *)

Module PyStr.

Definition code (c : ascii) : nat := nat_of_ascii c.

Definition in_range (lo hi : nat) (c : ascii) : bool :=
  (lo <=? code c) && (code c <=? hi).

(** [c in s]. *)
Fixpoint mem (c : ascii) (s : string) : bool :=
  match s with
  | EmptyString => false
  | String d s' => Ascii.eqb c d || mem c s'
  end.

(** The part of [s] before the first [c] (all of [s] when there is none). *)
Fixpoint before_first (c : ascii) (s : string) : string :=
  match s with
  | EmptyString => EmptyString
  | String d s' => if Ascii.eqb c d then EmptyString
                   else String d (before_first c s')
  end.

(** The part of [s] after the first [c], when [c] occurs. *)
Fixpoint after_first (c : ascii) (s : string) : option string :=
  match s with
  | EmptyString => None
  | String d s' => if Ascii.eqb c d then Some s' else after_first c s'
  end.

(** [s.split(c)]: always at least one piece. *)
Fixpoint split (c : ascii) (s : string) : list string :=
  match s with
  | EmptyString => [EmptyString]
  | String d s' =>
      if Ascii.eqb c d then EmptyString :: split c s'
      else match split c s' with
           | p :: ps => String d p :: ps
           | [] => [String d EmptyString]
           end
  end.

(** [s.replace(a, b)] for single characters. *)
Fixpoint replace_char (a b : ascii) (s : string) : string :=
  match s with
  | EmptyString => EmptyString
  | String d s' =>
      String (if Ascii.eqb a d then b else d) (replace_char a b s')
  end.

(** [s.replace(a, "")] for a single character. *)
Fixpoint remove_char (a : ascii) (s : string) : string :=
  match s with
  | EmptyString => EmptyString
  | String d s' =>
      if Ascii.eqb a d then remove_char a s' else String d (remove_char a s')
  end.

(** [s.lstrip(chars)] for a set of characters given as a predicate. *)
Fixpoint lstrip (p : ascii -> bool) (s : string) : string :=
  match s with
  | EmptyString => EmptyString
  | String d s' => if p d then lstrip p s' else s
  end.

(** [sep.join(l)]. *)
Fixpoint join (sep : string) (l : list string) : string :=
  match l with
  | [] => EmptyString
  | [x] => x
  | x :: rest => x ++ sep ++ join sep rest
  end.

(** [s.startswith(p)], returning what follows the prefix. *)
Fixpoint strip_prefix (p s : string) : option string :=
  match p, s with
  | EmptyString, _ => Some s
  | String a p', String b s' =>
      if Ascii.eqb a b then strip_prefix p' s' else None
  | String _ _, EmptyString => None
  end.

(** Truth value of a string: [bool(s)]. *)
Definition truthy (s : string) : bool :=
  match s with EmptyString => false | String _ _ => true end.

(** [s.rpartition(c)[2]]: what follows the last [c]; all of [s] when there
    is none. *)
Fixpoint after_last (c : ascii) (s : string) : string :=
  match s with
  | EmptyString => EmptyString
  | String d s' =>
      if mem c s' then after_last c s'
      else if Ascii.eqb c d then s' else s
  end.

(** [s] cut before its first character satisfying [stop]: the part before
    and the part from that character on. *)
Fixpoint span_until (stop : ascii -> bool) (s : string) : string * string :=
  match s with
  | EmptyString => (EmptyString, EmptyString)
  | String d s' =>
      if stop d then (EmptyString, s)
      else match span_until stop s' with
           | (a, b) => (String d a, b)
           end
  end.

(** Every character of [s] satisfies [p]. *)
Fixpoint all_chars (p : ascii -> bool) (s : string) : bool :=
  match s with
  | EmptyString => true
  | String d s' => p d && all_chars p s'
  end.

(** [s.isascii()]. *)
Definition isascii (s : string) : bool :=
  all_chars (fun c => code c <? 128) s.

End PyStr.

(* ================================================================== *)
(** * Python values and exceptions *)
(* ================================================================== *)

Module Py.
Import PyStr.

(** The exception classes the program raises, catches or can meet, all of
    them derived from [Exception].  Any class without a role of its own is
    [OtherError] with its name. *)
Inductive exc_class : Type :=
| Exception
| CouldNotRetrieveTranscript
| NoTranscriptFound
| TranscriptsDisabled
| RequestException
| HTTPError
| AttributeError
| IndexError
| KeyError
| TypeError
| UnboundLocalError
| ParseError
| OtherError (name : string).

Definition exc_class_eqb (c d : exc_class) : bool :=
  match c, d with
  | Exception, Exception
  | CouldNotRetrieveTranscript, CouldNotRetrieveTranscript
  | NoTranscriptFound, NoTranscriptFound
  | TranscriptsDisabled, TranscriptsDisabled
  | RequestException, RequestException
  | HTTPError, HTTPError
  | AttributeError, AttributeError
  | IndexError, IndexError
  | KeyError, KeyError
  | TypeError, TypeError
  | UnboundLocalError, UnboundLocalError
  | ParseError, ParseError => true
  | OtherError n, OtherError m => String.eqb n m
  | _, _ => false
  end.

(** [issubclass(c, d)].  [youtube_transcript_api._errors] derives
    [NoTranscriptFound] and [TranscriptsDisabled] from
    [CouldNotRetrieveTranscript]; [requests] derives [HTTPError] from
    [RequestException]; everything derives from [Exception]. *)
Definition issubclass (c d : exc_class) : bool :=
  match d with
  | Exception => true
  | CouldNotRetrieveTranscript =>
      match c with
      | CouldNotRetrieveTranscript | NoTranscriptFound
      | TranscriptsDisabled => true
      | _ => false
      end
  | RequestException =>
      match c with
      | RequestException | HTTPError => true
      | _ => false
      end
  | _ => exc_class_eqb c d
  end.

(** An exception value: its class and [str(e)].  For the built-in
    [Exception], [raise Exception(message)] raises the exception whose
    [str] is [message]; the classes of [youtube_transcript_api] are built
    by constructors of their own. *)
Record exn : Type := Exc { exn_class : exc_class; exn_str : string }.

Definition isinstance (e : exn) (c : exc_class) : bool :=
  issubclass (exn_class e) c.

(** What a Python expression evaluates to: a value or a raised exception. *)
Definition result (A : Type) : Type := (exn + A)%type.

Definition rbind {A B : Type} (r : result A) (f : A -> result B) : result B :=
  match r with
  | inl e => inl e
  | inr a => f a
  end.

(** The values [json] / [response.json()] exchange. *)
#[local] Unset Elimination Schemes.
Inductive json : Type :=
| JNull
| JBool (b : bool)
| JInt (z : Z)
| JFloat (f : SpecFloat.spec_float)
| JStr (s : string)
| JArr (items : list json)
| JObj (fields : list (string * json)).
#[local] Set Elimination Schemes.

(** [bool(x)]. *)
Definition py_truthy (x : json) : bool :=
  match x with
  | JNull => false
  | JBool b => b
  | JInt z => negb (Z.eqb z 0)
  | JFloat (SpecFloat.S754_zero _) => false
  | JFloat _ => true
  | JStr s => truthy s
  | JArr [] => false
  | JArr (_ :: _) => true
  | JObj [] => false
  | JObj (_ :: _) => true
  end.

Definition type_name (x : json) : string :=
  match x with
  | JNull => "NoneType"
  | JBool _ => "bool"
  | JInt _ => "int"
  | JFloat _ => "float"
  | JStr _ => "str"
  | JArr _ => "list"
  | JObj _ => "dict"
  end.

Fixpoint assoc (k : string) (fields : list (string * json)) : option json :=
  match fields with
  | [] => None
  | (k', v) :: rest => if String.eqb k k' then Some v else assoc k rest
  end.

(** [x.get(key, default)]: only a dict has [get]. *)
Definition py_get (x : json) (key : string) (default : json) : result json :=
  match x with
  | JObj fields =>
      inr (match assoc key fields with
           | Some v => v
           | None => default
           end)
  | _ => inl (Exc AttributeError
                ("'" ++ type_name x ++ "' object has no attribute 'get'"))
  end.

(** The bytes of [s] that continue its first character. *)
Fixpoint continuation_bytes (s : string) : string :=
  match s with
  | EmptyString => EmptyString
  | String c s' =>
      if in_range 128 191 c then String c (continuation_bytes s')
      else EmptyString
  end.

(** [x[0]]: the first item of a list, the first character of a string; a
    dict decoded from JSON has string keys only, so [0] is a missing key. *)
Definition py_index0 (x : json) : result json :=
  match x with
  | JArr (v :: _) => inr v
  | JArr [] => inl (Exc IndexError "list index out of range")
  | JStr (String c s) => inr (JStr (String c (continuation_bytes s)))
  | JStr EmptyString => inl (Exc IndexError "string index out of range")
  | JObj _ => inl (Exc KeyError "0")
  | _ => inl (Exc TypeError
                ("'" ++ type_name x ++ "' object is not subscriptable"))
  end.

(** [str(n)] for an [int]. *)
Definition str_of_int (z : Z) : string :=
  DecimalString.NilZero.string_of_int (Z.to_int z).

End Py.

(* ================================================================== *)
(** * The outside world *)
(* ================================================================== *)

Module Services.
Import PyStr Py.

(** One caption line as [youtube_transcript_api] returns it; only the
    ['text'] key is read. *)
Record segment : Type := Segment { seg_text : string }.

(** A [Transcript] object of [list_transcripts]. *)
Record transcript : Type := Transcript {
  language_code : string;
  language : string;
  is_generated : bool
}.

(** A [requests.Response]: what the program reads of it.  [json_result] is
    what [response.json()] gives. *)
Record response : Type := Response {
  status_code : Z;
  text : string;
  reason : string;
  resp_url : string;
  json_result : result json
}.

(** An [xml.etree.ElementTree.Element]. *)
#[local] Unset Elimination Schemes.
Inductive element : Type :=
| Element (tag : string) (node_text : option string) (children : list element).
#[local] Set Elimination Schemes.

Definition tag_of (n : element) : string :=
  match n with Element t _ _ => t end.

Definition text_of (n : element) : option string :=
  match n with Element _ t _ => t end.

(** [root.findall(name)]: the direct children called [name]. *)
Definition findall (root : element) (name : string) : list element :=
  match root with
  | Element _ _ children =>
      filter (fun n => String.eqb (tag_of n) name) children
  end.

(** What [ipaddress.ip_address] makes of a host. *)
Inductive ip_version : Type :=
| IPv4
| IPv6.

(** The calls made to the outside, each with what came back. *)
Inductive event : Type :=
| EvGetTranscript (video_id : string) (languages : list string)
                  (r : result (list segment))
| EvListTranscripts (video_id : string) (r : result (list transcript))
| EvFetch (t : transcript) (r : result (list segment))
| EvHttpGet (url : string) (r : result response)
| EvHttpPost (url : string) (headers : list (string * string))
             (data : string) (r : result response)
| EvSleep (seconds : Z)
| EvPrint (line : string).

(** The libraries the program calls.  A call takes the state of the world
    and gives its answer and the next state. *)
Class Services : Type := {
  World : Type;
  (** [YouTubeTranscriptApi.get_transcript(video_id, languages=...)] *)
  yt_get_transcript :
    string -> list string -> World -> result (list segment) * World;
  (** [YouTubeTranscriptApi.list_transcripts(video_id)], as the tracks in
      the order iteration visits them *)
  yt_list_transcripts : string -> World -> result (list transcript) * World;
  (** [transcript.fetch()] *)
  yt_fetch : transcript -> World -> result (list segment) * World;
  (** [requests.get(url)] *)
  requests_get : string -> World -> result response * World;
  (** [requests.post(url, headers=..., data=...)] *)
  requests_post :
    string -> list (string * string) -> string -> World ->
    result response * World;
  (** [time.sleep(seconds)] *)
  time_sleep : Z -> World -> World;
  (** [json.dumps(obj)] *)
  json_dumps : json -> string;
  (** [ET.fromstring(text)] *)
  ET_fromstring : string -> result element;
  (** [ipaddress.ip_address(host)]: the kind of address, or the
      [ValueError] raised for what is no address *)
  ip_address : string -> result ip_version;
  (** [unicodedata.normalize('NFKC', s)] *)
  normalize_NFKC : string -> string;
  (** [str(CouldNotRetrieveTranscript(video_id))]: the library's message
      for the video [video_id] *)
  could_not_retrieve_str : string -> string;
  (** [str] of the [TypeError] Python raises when [NoTranscriptFound] is
      called with one argument *)
  missing_arguments_str : string
}.

(** [CouldNotRetrieveTranscript(message)]: the one argument of the
    constructor is the video id, around which the library writes its own
    message. *)
Definition new_CouldNotRetrieveTranscript {svc : Services}
    (message : string) : result exn :=
  inr (Exc CouldNotRetrieveTranscript (could_not_retrieve_str message)).

(** [NoTranscriptFound(message)]: the constructor is
    [__init__(self, video_id, requested_language_codes, transcript_data)],
    so the call with one argument raises [TypeError] and builds nothing. *)
Definition new_NoTranscriptFound {svc : Services} (message : string)
    : result exn :=
  inl (Exc TypeError missing_arguments_str).

(** [response.raise_for_status()]. *)
Definition raise_for_status (r : response) : result unit :=
  if ((400 <=? status_code r) && (status_code r <? 500))%Z then
    inl (Exc HTTPError
           (str_of_int (status_code r) ++ " Client Error: " ++ reason r
            ++ " for url: " ++ resp_url r))
  else if ((500 <=? status_code r) && (status_code r <? 600))%Z then
    inl (Exc HTTPError
           (str_of_int (status_code r) ++ " Server Error: " ++ reason r
            ++ " for url: " ++ resp_url r))
  else inr tt.

End Services.

(* ================================================================== *)
(** * [urllib.parse] *)
(* ================================================================== *)

Module UrlLib.
Import PyStr Py Services.

(** [_WHATWG_C0_CONTROL_OR_SPACE]: the characters U+0000 to U+0020. *)
Definition c0_control_or_space (c : ascii) : bool := code c <=? 32.

(** [_UNSAFE_URL_BYTES_TO_REMOVE = ['\t', '\r', '\n']]. *)
Definition remove_unsafe (url : string) : string :=
  remove_char (ascii_of_nat 10)
    (remove_char (ascii_of_nat 13) (remove_char (ascii_of_nat 9) url)).

Definition value_error (message : string) : exn :=
  Exc (OtherError "ValueError") message.

(** [c in scheme_chars]. *)
Definition is_scheme_char (c : ascii) : bool :=
  in_range 97 122 c || in_range 65 90 c || in_range 48 57 c
  || Ascii.eqb c "+" || Ascii.eqb c "-" || Ascii.eqb c ".".

(** [c.isascii() and c.isalpha()]. *)
Definition is_ascii_alpha (c : ascii) : bool :=
  in_range 97 122 c || in_range 65 90 c.

(** The scheme step of [urlsplit]: with [i = url.find(':')], when [i > 0],
    [url[0]] is an ASCII letter and every character of [url[:i]] is a
    scheme character, the scheme is taken off and [url[i+1:]] is left. *)
Definition drop_scheme (url : string) : string :=
  match url with
  | EmptyString => url
  | String c _ =>
      if is_ascii_alpha c then
        match after_first ":" url with
        | Some rest =>
            if all_chars is_scheme_char (before_first ":" url) then rest
            else url
        | None => url
        end
      else url
  end.

(** The query of a cleaned URL whose scheme and network location have been
    taken off: the fragment is cut at the first ['#'], then the query at
    the first ['?'] of what is left. *)
Definition query_of (url : string) : string :=
  match after_first "?" (before_first "#" url) with
  | Some query => query
  | None => EmptyString
  end.

Definition is_hex_digit (c : ascii) : bool :=
  in_range 48 57 c || in_range 65 70 c || in_range 97 102 c.

(** [re.match(r"\Av[a-fA-F0-9]+\..+\Z", hostname)]. *)
Definition is_ipvfuture (hostname : string) : bool :=
  match hostname with
  | String c rest =>
      Ascii.eqb c "v"
      && match span_until (fun d => negb (is_hex_digit d)) rest with
         | (digits, String dot more) =>
             truthy digits && Ascii.eqb dot "." && truthy more
             && negb (mem (ascii_of_nat 10) more)
         | (_, EmptyString) => false
         end
  | EmptyString => false
  end.

Section Checks.
Context {svc : Services}.

(** [_check_bracketed_host(hostname)]. *)
Definition check_bracketed_host (hostname : string) : result unit :=
  match hostname with
  | String "v" _ =>
      if is_ipvfuture hostname then inr tt
      else inl (value_error "IPvFuture address is invalid")
  | _ =>
      rbind (ip_address hostname) (fun ip =>
      match ip with
      | IPv4 => inl (value_error "An IPv4 address cannot be in brackets")
      | IPv6 => inr tt
      end)
  end.

(** [_check_bracketed_netloc(netloc)]. *)
Definition check_bracketed_netloc (netloc : string) : result unit :=
  let hostname_and_port := after_last "@" netloc in
  if mem "[" hostname_and_port then
    let before_bracket := before_first "[" hostname_and_port in
    let bracketed := match after_first "[" hostname_and_port with
                     | Some b => b
                     | None => EmptyString
                     end in
    if truthy before_bracket then inl (value_error "Invalid IPv6 URL")
    else
      let hostname := before_first "]" bracketed in
      let port := match after_first "]" bracketed with
                  | Some p => p
                  | None => EmptyString
                  end in
      if truthy port
         && negb (match port with
                  | String c _ => Ascii.eqb c ":"
                  | EmptyString => false
                  end)
      then inl (value_error "Invalid IPv6 URL")
      else check_bracketed_host hostname
  else check_bracketed_host (before_first ":" hostname_and_port).

(** [_checknetloc(netloc)]. *)
Definition checknetloc (netloc : string) : result unit :=
  if negb (truthy netloc) || isascii netloc then inr tt
  else
    let n := remove_char "?" (remove_char "#" (remove_char ":"
               (remove_char "@" netloc))) in
    let netloc2 := normalize_NFKC n in
    if String.eqb n netloc2 then inr tt
    else if existsb (fun c => mem c netloc2) ["/"; "?"; "#"; "@"; ":"]%char
    then inl (value_error
                ("netloc '" ++ netloc
                 ++ "' contains invalid characters under NFKC normalization"))
    else inr tt.

(** The network-location step of [urlsplit], for a URL whose scheme has
    been taken off: when it starts with [//], [_splitnetloc(url, 2)] cuts
    the network location at the first of [/?#] and its square brackets
    are checked.  The result is the network location and what follows. *)
Definition split_netloc (url : string) : result (string * string) :=
  match strip_prefix "//" url with
  | Some after_slashes =>
      match span_until (fun c => Ascii.eqb c "/" || Ascii.eqb c "?"
                                 || Ascii.eqb c "#") after_slashes with
      | (netloc, url) =>
          if (mem "[" netloc && negb (mem "]" netloc))
             || (mem "]" netloc && negb (mem "[" netloc))
          then inl (value_error "Invalid IPv6 URL")
          else
            rbind (if mem "[" netloc && mem "]" netloc
                   then check_bracketed_netloc netloc
                   else inr tt) (fun _ =>
            inr (netloc, url))
      end
  | None => inr (EmptyString, url)
  end.

(** [urlparse(url).query].  [urlsplit] strips leading C0 controls and
    spaces, deletes tab, CR and LF, takes off the scheme and the network
    location, cuts the fragment and the query and, last, checks the
    network location under NFKC.  [urlparse] only splits [;params] off
    the path afterwards. *)
Definition urlparse_query (url : string) : result string :=
  let url := lstrip c0_control_or_space url in
  let url := remove_unsafe url in
  let url := drop_scheme url in
  rbind (split_netloc url) (fun netloc_url =>
  let netloc := fst netloc_url in
  let url := snd netloc_url in
  let query := query_of url in
  rbind (checknetloc netloc) (fun _ =>
  inr query)).

End Checks.

Definition hex_value (c : ascii) : option nat :=
  if in_range 48 57 c then Some (code c - 48)
  else if in_range 65 70 c then Some (code c - 55)
  else if in_range 97 102 c then Some (code c - 87)
  else None.

(** [unquote_to_bytes]: [%XY] with two hexadecimal digits becomes the byte
    [0xXY]; a ['%'] not followed by two hexadecimal digits stays. *)
Fixpoint unquote_to_bytes (s : string) : string :=
  match s with
  | EmptyString => EmptyString
  | String c s' =>
      if Ascii.eqb c "%" then
        match s' with
        | String a (String b rest) =>
            match hex_value a, hex_value b with
            | Some x, Some y =>
                String (ascii_of_nat (16 * x + y)) (unquote_to_bytes rest)
            | _, _ => String c (unquote_to_bytes s')
            end
        | _ => String c (unquote_to_bytes s')
        end
      else String c (unquote_to_bytes s')
  end.

(** U+FFFD REPLACEMENT CHARACTER, in UTF-8. *)
Definition replacement : string :=
  String (ascii_of_nat 239) (String (ascii_of_nat 191)
    (String (ascii_of_nat 189) EmptyString)).

Definition is_continuation (c : ascii) : bool := in_range 128 191 c.

(** The second byte of a three-byte sequence must continue, and must not
    give an overlong form (after [0xE0]) or a surrogate (after [0xED]). *)
Definition bad_second3 (c1 c2 : ascii) : bool :=
  negb (is_continuation c2)
  || (if code c2 <? 160 then code c1 =? 224 else code c1 =? 237).

(** The same for four bytes: no overlong form after [0xF0], nothing above
    U+10FFFF after [0xF4]. *)
Definition bad_second4 (c1 c2 : ascii) : bool :=
  negb (is_continuation c2)
  || (if code c2 <? 144 then code c1 =? 240 else code c1 =? 244).

(** [bytes.decode('utf-8', 'replace')], read on the UTF-8 side: well-formed
    sequences are kept and each ill-formed one (an invalid start byte, the
    longest valid prefix before an invalid continuation byte, a truncated
    tail) becomes one U+FFFD, as CPython's decoder reports them. *)
Fixpoint utf8_replace (s : string) : string :=
  match s with
  | EmptyString => EmptyString
  | String c1 r1 =>
      if code c1 <? 128 then String c1 (utf8_replace r1)
      else if code c1 <? 194 then replacement ++ utf8_replace r1
      else if code c1 <? 224 then
        match r1 with
        | EmptyString => replacement
        | String c2 r2 =>
            if is_continuation c2
            then String c1 (String c2 (utf8_replace r2))
            else replacement ++ utf8_replace r1
        end
      else if code c1 <? 240 then
        match r1 with
        | EmptyString => replacement
        | String c2 r2 =>
            if bad_second3 c1 c2 then replacement ++ utf8_replace r1
            else match r2 with
                 | EmptyString => replacement
                 | String c3 r3 =>
                     if is_continuation c3
                     then String c1 (String c2 (String c3 (utf8_replace r3)))
                     else replacement ++ utf8_replace r2
                 end
        end
      else if code c1 <? 245 then
        match r1 with
        | EmptyString => replacement
        | String c2 r2 =>
            if bad_second4 c1 c2 then replacement ++ utf8_replace r1
            else match r2 with
                 | EmptyString => replacement
                 | String c3 r3 =>
                     if negb (is_continuation c3)
                     then replacement ++ utf8_replace r2
                     else match r3 with
                          | EmptyString => replacement
                          | String c4 r4 =>
                              if is_continuation c4
                              then String c1 (String c2 (String c3
                                     (String c4 (utf8_replace r4))))
                              else replacement ++ utf8_replace r3
                          end
                 end
        end
      else replacement ++ utf8_replace r1
  end.

(** One maximal ASCII run of [unquote]'s input, unquoted and decoded. *)
Definition unquote_run (run : string) : string :=
  utf8_replace (unquote_to_bytes run).

(** [_asciire.split]: the maximal runs of ASCII characters are unquoted one
    by one and the characters between them are kept.  [run] collects the
    ASCII run being read. *)
Fixpoint unquote_parts (s run : string) : string :=
  match s with
  | EmptyString => unquote_run run
  | String c s' =>
      if code c <? 128 then unquote_parts s' (run ++ String c EmptyString)
      else unquote_run run ++ String c (unquote_parts s' EmptyString)
  end.

(** [unquote(string)] with the defaults [encoding='utf-8'],
    [errors='replace']. *)
Definition unquote (s : string) : string :=
  if negb (mem "%" s) then s else unquote_parts s EmptyString.

(** What [parse_qs] builds: a dict from names to the non-empty list of
    their values, in order of first appearance.  A list is created holding
    one value and only ever appended to, hence head and tail. *)
Definition qs_dict : Type := list (string * (string * list string)).

Fixpoint dict_get (k : string) (d : qs_dict) : option (string * list string) :=
  match d with
  | [] => None
  | (k', vs) :: d' => if String.eqb k k' then Some vs else dict_get k d'
  end.

(** [if name in parsed_result: parsed_result[name].append(value)
     else: parsed_result[name] = [value]]. *)
Fixpoint dict_add (k v : string) (d : qs_dict) : qs_dict :=
  match d with
  | [] => [(k, (v, []))]
  | (k', (v0, vs)) :: d' =>
      if String.eqb k k' then (k', (v0, (vs ++ [v])%list)) :: d'
      else (k', (v0, vs)) :: dict_add k v d'
  end.

(** One field of [parse_qsl] with [keep_blank_values=False] and
    [strict_parsing=False]: an empty field, a field without ['='] and a
    field with an empty value are all skipped. *)
Definition parse_field (name_value : string) : option (string * string) :=
  if negb (truthy name_value) then None
  else match after_first "=" name_value with
       | None => None
       | Some raw_value =>
           if truthy raw_value then
             Some (unquote (replace_char "+" " " (before_first "=" name_value)),
                   unquote (replace_char "+" " " raw_value))
           else None
       end.

Fixpoint collect_fields (fields : list string) : list (string * string) :=
  match fields with
  | [] => []
  | f :: rest =>
      match parse_field f with
      | Some nv => nv :: collect_fields rest
      | None => collect_fields rest
      end
  end.

(** [parse_qsl(qs)] with [separator='&']. *)
Definition parse_qsl (qs : string) : list (string * string) :=
  collect_fields (if truthy qs then split "&" qs else []).

(** [parse_qs(qs)]. *)
Definition parse_qs (qs : string) : qs_dict :=
  fold_left (fun d nv => dict_add (fst nv) (snd nv) d) (parse_qsl qs) [].

End UrlLib.

(* ================================================================== *)
(** * Video-ID extractor *)
(* ================================================================== *)

Module Extractor.
Import PyStr Py Services UrlLib.

(** The class [[a-zA-Z0-9_-]]. *)
Definition is_id_char (c : ascii) : bool :=
  in_range 97 122 c || in_range 65 90 c || in_range 48 57 c
  || Ascii.eqb c "_" || Ascii.eqb c "-".

(** [[a-zA-Z0-9_-]{n}] matched at the start of [s]: the [n] characters. *)
Fixpoint take_id (n : nat) (s : string) : option string :=
  match n with
  | O => Some EmptyString
  | S n' =>
      match s with
      | String c s' =>
          if is_id_char c then
            match take_id n' s' with
            | Some id => Some (String c id)
            | None => None
            end
          else None
      | EmptyString => None
      end
  end.

(** [youtu\.be/([a-zA-Z0-9_-]{11})] matched at the start of [s]: group 1. *)
Definition match_here (s : string) : option string :=
  match strip_prefix "youtu.be/" s with
  | Some rest => take_id 11 rest
  | None => None
  end.

(** [re.search(r'youtu\.be/([a-zA-Z0-9_-]{11})', url)]: the leftmost
    position where the pattern matches; [None] when there is none. *)
Fixpoint re_search (s : string) : option string :=
  match match_here s with
  | Some id => Some id
  | None =>
      match s with
      | EmptyString => None
      | String _ s' => re_search s'
      end
  end.

(** [get_video_id(url)].  What [urlparse] raises is not caught. *)
Definition get_video_id {svc : Services} (url : string)
    : result (option string) :=
  rbind (urlparse_query url) (fun query =>
  let params := parse_qs query in
  match dict_get "v" params with
  | Some (v, _) => inr (Some v)
  | None =>
      match re_search url with
      | Some id => inr (Some id)
      | None => inr None
      end
  end).

End Extractor.

(* ================================================================== *)
(** * Computations: world state, exceptions and a trace *)
(* ================================================================== *)

Module Run.
Import PyStr Py Services.

Section Monad.
Context {svc : Services}.

Definition M (A : Type) : Type := World -> result A * World * list event.

Definition ret {A : Type} (a : A) : M A := fun w => (inr a, w, []).

Definition raise {A : Type} (e : exn) : M A := fun w => (inl e, w, []).

Definition bind {A B : Type} (m : M A) (f : A -> M B) : M B :=
  fun w =>
    match m w with
    | (inl e, w', t) => (inl e, w', t)
    | (inr a, w', t) =>
        match f a w' with
        | (r, w'', t') => (r, w'', (t ++ t')%list)
        end
    end.

(** An already evaluated expression. *)
Definition lift {A : Type} (r : result A) : M A := fun w => (r, w, []).

(** [raise C(...)]: the constructor call is evaluated first, and what it
    raises takes the place of the exception it was to build. *)
Definition raise_new {A : Type} (built : result exn) : M A :=
  match built with
  | inl e => raise e
  | inr e => raise e
  end.

(** A call to the outside, recorded with its answer. *)
Definition call {A : Type} (f : World -> result A * World)
    (ev : result A -> event) : M A :=
  fun w => match f w with (r, w') => (r, w', [ev r]) end.

(** [try: m] with the exception, if any, handed over as a value. *)
Definition attempt {A : Type} (m : M A) : M (result A) :=
  fun w => match m w with (r, w', t) => (inr r, w', t) end.

(** [try: m / except ... as e: handler e]; [handler] re-raises what no
    clause matches. *)
Definition try_except {A : Type} (m : M A) (handler : exn -> M A) : M A :=
  bind (attempt m)
       (fun r => match r with
                 | inl e => handler e
                 | inr a => ret a
                 end).

Definition sleep (seconds : Z) : M unit :=
  fun w => (inr tt, time_sleep seconds w, [EvSleep seconds]).

Definition print (line : string) : M unit :=
  fun w => (inr tt, w, [EvPrint line]).

Definition outcome {A : Type} (x : result A * World * list event) : result A :=
  fst (fst x).

Definition trace {A : Type} (x : result A * World * list event) : list event :=
  snd x.

Definition world_after {A : Type} (x : result A * World * list event) : World :=
  snd (fst x).

End Monad.

End Run.

(* ================================================================== *)
(** * The program *)
(* ================================================================== *)

Module App.
Import PyStr Py Services Run Extractor.

Notation "x <- m ;; k" := (bind m (fun x => k))
  (at level 61, m at next level, right associativity).
Notation "m ;;; k" := (bind m (fun _ => k))
  (at level 61, right associativity).

(** [API_KEY], [GEMINI_MODEL], [GEMINI_URL]. *)
Definition API_KEY : string := "".
Definition GEMINI_MODEL : string := "gemini-2.5-flash-preview-05-20".
Definition GEMINI_URL : string :=
  "https://generativelanguage.googleapis.com/v1beta/models/" ++ GEMINI_MODEL
  ++ ":generateContent?key=" ++ API_KEY.

Definition json_headers : list (string * string) :=
  [("Content-Type", "application/json")].

(** The characters [str.strip()] removes, on UTF-8: U+0009..U+000D,
    U+001C..U+0020, U+0085, U+00A0, U+1680, U+2000..U+200A, U+2028,
    U+2029, U+202F, U+205F and U+3000.  [is_blank s] says that [s] holds
    nothing else, that is, that [s.strip()] is empty. *)
Fixpoint is_blank (s : string) : bool :=
  match s with
  | EmptyString => true
  | String c r =>
      if in_range 9 13 c || in_range 28 32 c then is_blank r
      else
        match r with
        | String d r' =>
            if code c =? 194 then
              ((code d =? 133) || (code d =? 160)) && is_blank r'
            else
              match r' with
              | String e r'' =>
                  (((code c =? 225) && (code d =? 154) && (code e =? 128))
                   || ((code c =? 226) && (code d =? 128)
                       && (in_range 128 138 e || in_range 168 169 e
                           || (code e =? 175)))
                   || ((code c =? 226) && (code d =? 129) && (code e =? 159))
                   || ((code c =? 227) && (code d =? 128) && (code e =? 128)))
                  && is_blank r''
              | EmptyString => false
              end
        | EmptyString => false
        end
  end.

(** [' '.join([d['text'] for d in transcript_list])]. *)
Definition join_texts (transcript_list : list segment) : string :=
  join " " (map seg_text transcript_list).

(** [[node.text for node in root.findall('text') if node.text]]. *)
Definition caption_lines (root : element) : list string :=
  flat_map (fun node => match text_of node with
                        | Some t => if truthy t then [t] else []
                        | None => []
                        end)
           (findall root "text").

(** The body both generation requests carry. *)
Definition gemini_payload (content : json) (system_prompt : string) : json :=
  JObj [("contents", JArr [JObj [("parts", JArr [JObj [("text", content)]])]]);
        ("systemInstruction",
         JObj [("parts", JArr [JObj [("text", JStr system_prompt)]])])].

(** [result.get('candidates', [{}])[0].get('content', {})
          .get('parts', [{}])[0].get('text', default)]. *)
Definition first_text (result default : json) : Py.result json :=
  rbind (py_get result "candidates" (JArr [JObj []])) (fun candidates =>
  rbind (py_index0 candidates) (fun candidate =>
  rbind (py_get candidate "content" (JObj [])) (fun content =>
  rbind (py_get content "parts" (JArr [JObj []])) (fun parts =>
  rbind (py_index0 parts) (fun part =>
  py_get part "text" default))))).

Definition retries : nat := 5.

Definition retryable_status (code : Z) : bool :=
  existsb (Z.eqb code) [429; 500; 503]%Z.

Definition summary_system_prompt : string :=
  "You are a concise summarization expert. Summarize the following YouTube video transcript "
  ++ "into 3-5 key bullet points capturing main topics and conclusions.".

Definition error_body (message : string) : json :=
  JObj [("error", JStr message)].

Section Program.
Context {svc : Services}.

(** [get_fallback_captions(video_id)]. *)
Definition get_fallback_captions (video_id : string) : M string :=
  try_except
    (let url := "https://video.google.com/timedtext?lang=en&v=" ++ video_id in
     response <- call (requests_get url) (EvHttpGet url) ;;
     if (status_code response =? 200)%Z && negb (is_blank (text response))
     then
       root <- lift (ET_fromstring (text response)) ;;
       let texts := caption_lines root in
       ret (join " " texts)
     else
       raise_new (new_NoTranscriptFound
                    ("No transcripts or captions available for video "
                     ++ video_id ++ ".")))
    (fun e =>
       raise_new (new_NoTranscriptFound
                    ("Fallback captions failed for video " ++ video_id ++ ": "
                     ++ exn_str e))).

(** [translate_text(text, source_lang)]. *)
Definition translate_text (text source_lang : string) : M json :=
  let system_prompt :=
    "You are a professional translator. Translate the following text from "
    ++ source_lang ++ " to standard English." in
  let payload := gemini_payload (JStr text) system_prompt in
  try_except
    (let data := json_dumps payload in
     response <- call (requests_post GEMINI_URL json_headers data)
                      (EvHttpPost GEMINI_URL json_headers data) ;;
     lift (raise_for_status response) ;;;
     result <- lift (json_result response) ;;
     lift (first_text result (JStr text)))
    (fun e => ret (JStr ("Translation failed: " ++ exn_str e))).

(** The [for transcript in transcripts] loop of [get_transcript] with the
    fallback that follows it. *)
Fixpoint translate_first_foreign (video_id : string)
    (transcripts : list transcript) : M json :=
  match transcripts with
  | [] =>
      captions <- get_fallback_captions video_id ;;
      ret (JStr captions)
  | transcript :: rest =>
      if negb (String.eqb (language_code transcript) "en") then
        segments <- call (yt_fetch transcript) (EvFetch transcript) ;;
        let foreign_text := join_texts segments in
        translate_text foreign_text (language transcript)
      else translate_first_foreign video_id rest
  end.

(** [get_transcript(video_id)].  A handler runs outside the [try] it
    belongs to: what it raises is not seen by the clauses beside it. *)
Definition get_transcript (video_id : string) : M json :=
  try_except
    (transcript_list <- call (yt_get_transcript video_id ["en"])
                             (EvGetTranscript video_id ["en"]) ;;
     ret (JStr (join_texts transcript_list)))
    (fun e =>
       if isinstance e NoTranscriptFound then
         try_except
           (transcript_list <- call (yt_get_transcript video_id ["a.en"])
                                    (EvGetTranscript video_id ["a.en"]) ;;
            ret (JStr (join_texts transcript_list)))
           (fun e =>
              if isinstance e NoTranscriptFound then
                transcripts <- call (yt_list_transcripts video_id)
                                    (EvListTranscripts video_id) ;;
                translate_first_foreign video_id transcripts
              else
                raise (Exc Exception
                         ("Transcript retrieval error: " ++ exn_str e)))
       else if isinstance e TranscriptsDisabled then
         captions <- get_fallback_captions video_id ;;
         ret (JStr captions)
       else if isinstance e CouldNotRetrieveTranscript then
         raise_new (new_CouldNotRetrieveTranscript
                      ("Transcript Error: Could not retrieve transcript for video (ID: "
                       ++ video_id ++ "). Reason: " ++ exn_str e))
       else raise e).

(** The [for attempt in range(retries)] loop of [get_summary_gemini], over
    the attempts still to make.  [delay] and [response] are the local
    variables of those names ([response] is unbound until a first
    [requests.post] has returned).  [Some text] is the [return] inside the
    loop; [None] is the loop running out. *)
Fixpoint summary_loop (payload : json) (attempts : list nat) (delay : Z)
    (response : option response) : M (option json) :=
  match attempts with
  | [] => ret None
  | attempt_no :: rest =>
      let data := json_dumps payload in
      let on_error (e : exn) (response : option Services.response)
          : M (option json) :=
        if isinstance e HTTPError then
          match response with
          | None =>
              raise (Exc UnboundLocalError
                "cannot access local variable 'response' where it is not associated with a value")
          | Some r =>
              if retryable_status (status_code r)
                 && (attempt_no <? retries - 1)
              then
                sleep delay ;;;
                summary_loop payload rest (delay * 2)%Z response
              else raise (Exc Exception ("Gemini API error: " ++ exn_str e))
          end
        else raise (Exc Exception ("Gemini API call failed: " ++ exn_str e))
      in
      posted <- attempt (call (requests_post GEMINI_URL json_headers data)
                              (EvHttpPost GEMINI_URL json_headers data)) ;;
      match posted with
      | inl e => on_error e response
      | inr r =>
          match rbind (raise_for_status r) (fun _ =>
                rbind (json_result r) (fun result =>
                first_text result (JStr "Summary failed."))) with
          | inr summary => ret (Some summary)
          | inl e => on_error e (Some r)
          end
      end
  end.

(** [get_summary_gemini(transcript)]. *)
Definition get_summary_gemini (transcript : json) : M json :=
  let payload := gemini_payload transcript summary_system_prompt in
  looped <- summary_loop payload (seq 0 retries) 2%Z None ;;
  match looped with
  | Some summary => ret summary
  | None => ret (JStr "Summary generation failed.")
  end.

(** [summary_api()], for a request whose [url] argument is [url_arg]
    ([None] when the request has none); the answer is the JSON body and
    the status.  [get_video_id] is called outside the [try]: what it
    raises leaves the view. *)
Definition summary_api (url_arg : option string) : M (json * Z) :=
  let url := match url_arg with Some u => u | None => "" end in
  if negb (truthy url) then ret (error_body "No URL provided.", 400%Z)
  else
    video_id <- lift (get_video_id url) ;;
    match video_id with
    | None => ret (error_body "Invalid YouTube URL format.", 400%Z)
    | Some video_id =>
        if negb (truthy video_id)
        then ret (error_body "Invalid YouTube URL format.", 400%Z)
        else
          try_except
            (transcript <- get_transcript video_id ;;
             if negb (py_truthy transcript)
             then ret (error_body "Transcript is empty.", 404%Z)
             else
               summary <- get_summary_gemini transcript ;;
               ret (JObj [("summary", summary)], 200%Z))
            (fun e =>
               if isinstance e NoTranscriptFound
                  || isinstance e TranscriptsDisabled
                  || isinstance e CouldNotRetrieveTranscript
               then ret (error_body (exn_str e), 404%Z)
               else
                 print ("Internal Error: " ++ exn_str e) ;;;
                 ret (error_body
                        "Internal error occurred. Ensure video has English captions.",
                      500%Z))
    end.

End Program.

End App.

(* ================================================================== *)
(** * Vocabulary of the specification *)
(* ================================================================== *)

Module Spec.
Import PyStr Py Services Run UrlLib Extractor App.

(** The values a query string gives for the name [k], in order. *)
Definition values_of (k : string) (pairs : list (string * string))
    : list string :=
  map snd (filter (fun nv => String.eqb k (fst nv)) pairs).

(** [parse_qsl(qs, keep_blank_values=True)], one field at a time: a field
    without ['='] is a name with an empty value, and an empty value is
    kept. *)
Definition parse_field_keep_blank (name_value : string)
    : option (string * string) :=
  if negb (truthy name_value) then None
  else
    Some (unquote (replace_char "+" " " (before_first "=" name_value)),
          match after_first "=" name_value with
          | Some raw_value => unquote (replace_char "+" " " raw_value)
          | None => EmptyString
          end).

(** The parameters of a query string as they are written, blank values
    included: [parse_qsl(qs, keep_blank_values=True)]. *)
Definition parse_qsl_keep_blank (qs : string) : list (string * string) :=
  flat_map (fun f => match parse_field_keep_blank f with
                     | Some nv => [nv]
                     | None => []
                     end)
           (if truthy qs then split "&" qs else []).

(** The values the query string writes for the name [k] that are not
    empty, in order. *)
Definition nonblank_values (k qs : string) : list string :=
  filter truthy (values_of k (parse_qsl_keep_blank qs)).

(** A VideoID as the data model describes it: exactly 11 characters, each
    alphanumeric, ['-'] or ['_']. *)
Definition is_video_id (s : string) : Prop :=
  String.length s = 11
  /\ forallb is_id_char (list_ascii_of_string s) = true.


(** The delays of a trace, in order. *)
Definition sleeps (t : list event) : list Z :=
  flat_map (fun ev => match ev with EvSleep d => [d] | _ => [] end) t.

(** The number of POSTs of a trace. *)
Definition post_count (t : list event) : nat :=
  length (filter (fun ev => match ev with
                            | EvHttpPost _ _ _ _ => true
                            | _ => false
                            end) t).


(** The placeholder [translate_text] returns for the failure [e]. *)
Definition translation_failed (e : exn) : json :=
  JStr ("Translation failed: " ++ exn_str e).

(** The event is a request for a transcript in the languages [langs]. *)
Definition requests_track (langs : list string) (ev : event) : Prop :=
  match ev with
  | EvGetTranscript _ l _ => l = langs
  | _ => False
  end.

(** The event is a call of the fallback scrape. *)
Definition is_scrape (ev : event) : Prop :=
  match ev with
  | EvHttpGet _ _ => True
  | _ => False
  end.

Definition scrape_url (video_id : string) : string :=
  "https://video.google.com/timedtext?lang=en&v=" ++ video_id.

Definition generic_error : json * Z :=
  (error_body "Internal error occurred. Ensure video has English captions.",
   500%Z).

End Spec.

(* ================================================================== *)
(** * The program's steps, unfolded *)
(* ================================================================== *)

(** Closed forms of single steps of the program, used in the proofs only;
    each is proved equal to the step it unfolds ([summary_loop_step],
    [get_fallback_captions_run], [translate_text_run]). *)
Module Unfolded.
Import PyStr Py Services Run Extractor App Spec.

(** What the body of one attempt evaluates to once [r] has come back. *)
Definition summary_of (r : response) : result json :=
  rbind (raise_for_status r) (fun _ =>
  rbind (json_result r) (fun result =>
  first_text result (JStr "Summary failed."))).

(** How one attempt ends. *)
Inductive decision : Type :=
| Return (summary : json)
| Retry (response : option response)
| Fail (e : exn).

(** The [except] clauses of the loop, for the exception [e] with the
    variable [response] as it then stands. *)
Definition decide_error (attempt_no : nat) (e : exn)
    (response : option response) : decision :=
  if isinstance e HTTPError then
    match response with
    | None =>
        Fail (Exc UnboundLocalError
          "cannot access local variable 'response' where it is not associated with a value")
    | Some r =>
        if retryable_status (status_code r) && (attempt_no <? retries - 1)
        then Retry response
        else Fail (Exc Exception ("Gemini API error: " ++ exn_str e))
    end
  else Fail (Exc Exception ("Gemini API call failed: " ++ exn_str e)).

Definition decide_attempt (attempt_no : nat) (response : option response)
    (answer : result Services.response) : decision :=
  match answer with
  | inl e => decide_error attempt_no e response
  | inr r =>
      match summary_of r with
      | inr summary => Return summary
      | inl e => decide_error attempt_no e (Some r)
      end
  end.


Section WithServices.
Context {svc : Services}.

(** What the scrape raises on each of its failing paths: the [TypeError]
    of [NoTranscriptFound] called with one argument.  The [raise] of the
    [else] branch raises it, the [except Exception] clause catches it, and
    the [raise] of that clause raises it again. *)
Definition scrape_failed : exn := Exc TypeError missing_arguments_str.

(** What the scrape makes of the answer [r] to its GET. *)
Definition scrape_result (video_id : string) (r : result response)
    : result string :=
  match r with
  | inl e => inl scrape_failed
  | inr resp =>
      if (status_code resp =? 200)%Z && negb (is_blank (text resp)) then
        match ET_fromstring (text resp) with
        | inr root => inr (join " " (caption_lines root))
        | inl e => inl scrape_failed
        end
      else inl scrape_failed
  end.

(** What [translate_text] returns for the answer [r] to its POST. *)
Definition translation_value (text : string) (r : result response) : json :=
  match rbind r (fun resp =>
        rbind (raise_for_status resp) (fun _ =>
        rbind (json_result resp) (fun result =>
        first_text result (JStr text)))) with
  | inr v => v
  | inl e => translation_failed e
  end.

Definition translation_data (text source_lang : string) : string :=
  json_dumps
    (gemini_payload (JStr text)
       ("You are a professional translator. Translate the following text from "
        ++ source_lang ++ " to standard English.")).

End WithServices.

End Unfolded.

(* ================================================================== *)
(** * Example worlds *)
(* ================================================================== *)

Module Scripted.
Import PyStr Py Services Run.

(** A world that answers from a script: the two English tracks, the track
    list, what fetching a track gives, the timed-text endpoint, the
    generation service's answer to its [n]-th POST, the XML parser and
    the serializer. *)
Record script : Type := Script {
  en_track : result (list segment);
  auto_track : result (list segment);
  tracks : result (list transcript);
  fetched : transcript -> result (list segment);
  timedtext : result response;
  generation : nat -> result response;
  parsed : string -> result element;
  dumps : json -> string
}.

(** The hosts these worlds know as addresses. *)
Definition parse_address (host : string) : result ip_version :=
  if String.eqb host "::1" then inr IPv6
  else if String.eqb host "127.0.0.1" then inr IPv4
  else inl (Exc (OtherError "ValueError")
              ("'" ++ host ++ "' does not appear to be an IPv4 or IPv6 address")).

(** The state of such a world is the number of POSTs it has answered.
    [urlsplit] normalizes only a network location that is not ASCII,
    which these worlds are never given. *)
Definition services (sc : script) : Services := {|
  World := nat;
  yt_get_transcript := fun _ languages w =>
    (match languages with
     | [l] => if String.eqb l "en" then en_track sc else auto_track sc
     | _ => auto_track sc
     end, w);
  yt_list_transcripts := fun _ w => (tracks sc, w);
  yt_fetch := fun t w => (fetched sc t, w);
  requests_get := fun _ w => (timedtext sc, w);
  requests_post := fun _ _ _ w => (generation sc w, Datatypes.S w);
  time_sleep := fun _ w => w;
  json_dumps := dumps sc;
  ET_fromstring := parsed sc;
  ip_address := parse_address;
  normalize_NFKC := fun s => s;
  could_not_retrieve_str := fun video_id =>
    String (ascii_of_nat 10)
      ("Could not retrieve a transcript for the video "
       ++ "https://www.youtube.com/watch?v=" ++ video_id ++ "!");
  missing_arguments_str :=
    "NoTranscriptFound.__init__() missing 2 required positional arguments: "
    ++ "'requested_language_codes' and 'transcript_data'"
|}.

Definition no_transcript : exn :=
  Exc NoTranscriptFound "No transcripts were found for the requested language codes.".

Definition disabled : exn :=
  Exc TranscriptsDisabled "Subtitles are disabled for this video".

Definition http (status : Z) (reason body : string) (parsed_body : result json)
    : response :=
  Response status body reason App.GEMINI_URL parsed_body.

Definition not_json : exn :=
  Exc (OtherError "JSONDecodeError") "Expecting value: line 1 column 1 (char 0)".

(** A well-formed generation answer carrying [text]. *)
Definition generated (text : string) : json :=
  JObj [("candidates",
         JArr [JObj [("content",
                      JObj [("parts", JArr [JObj [("text", JStr text)]])])]])].

Definition unavailable : response :=
  http 503 "Service Unavailable" "" (inl not_json).

Definition ok_text (text : string) : response :=
  http 200 "OK" "{...}" (inr (generated text)).

Definition no_parser (body : string) : result element :=
  inl (Exc ParseError "syntax error: line 1, column 0").

(** These worlds do not look at the body of a request; it is written as a
    fixed tag. *)
Definition payload_tag (payload : json) : string := "<payload>".

(** Nothing is available and the service is down. *)
Definition nothing : script := {|
  en_track := inl no_transcript;
  auto_track := inl no_transcript;
  tracks := inr [];
  fetched := fun _ => inl no_transcript;
  timedtext := inr (Response 404 "" "Not Found" "" (inl not_json));
  generation := fun _ => inr unavailable;
  parsed := no_parser;
  dumps := payload_tag
|}.

(** The manual English track exists; the service answers at once. *)
Definition english : script := {|
  en_track := inr [Segment "Hello"; Segment "world"];
  auto_track := inl no_transcript;
  tracks := inr [];
  fetched := fun _ => inl no_transcript;
  timedtext := inr (Response 404 "" "Not Found" "" (inl not_json));
  generation := fun _ => inr (ok_text "- a greeting");
  parsed := no_parser;
  dumps := payload_tag
|}.

(** Only the auto-generated English track exists. *)
Definition auto_english : script := {|
  en_track := inl no_transcript;
  auto_track := inr [Segment "Hello"; Segment "again"];
  tracks := inr [];
  fetched := fun _ => inl no_transcript;
  timedtext := inr (Response 404 "" "Not Found" "" (inl not_json));
  generation := fun _ => inr (ok_text "- a greeting");
  parsed := no_parser;
  dumps := payload_tag
|}.

Definition french_track : transcript := Transcript "fr" "French" false.
Definition english_track : transcript := Transcript "en" "English" true.

(** Only a French track can be fetched; the service translates it. *)
Definition french : script := {|
  en_track := inl no_transcript;
  auto_track := inl no_transcript;
  tracks := inr [english_track; french_track];
  fetched := fun _ => inr [Segment "Bonjour"; Segment "le"; Segment "monde"];
  timedtext := inr (Response 404 "" "Not Found" "" (inl not_json));
  generation := fun _ => inr (ok_text "Hello world");
  parsed := no_parser;
  dumps := payload_tag
|}.

(** As [french], with a generation service that answers [{}]. *)
Definition french_empty_answer : script := {|
  en_track := inl no_transcript;
  auto_track := inl no_transcript;
  tracks := inr [french_track];
  fetched := fun _ => inr [Segment "Bonjour"; Segment "le"; Segment "monde"];
  timedtext := inr (Response 404 "" "Not Found" "" (inl not_json));
  generation := fun _ => inr (http 200 "OK" "{}" (inr (JObj [])));
  parsed := no_parser;
  dumps := payload_tag
|}.

(** Transcripts are disabled, as the first request already says. *)
Definition disabled_at_once : script := {|
  en_track := inl disabled;
  auto_track := inl disabled;
  tracks := inl disabled;
  fetched := fun _ => inl disabled;
  timedtext := inr (Response 404 "" "Not Found" "" (inl not_json));
  generation := fun _ => inr (ok_text "- a summary");
  parsed := no_parser;
  dumps := payload_tag
|}.

(** The disabled signal comes with the auto-generated track only. *)
Definition disabled_at_auto : script := {|
  en_track := inl no_transcript;
  auto_track := inl disabled;
  tracks := inl disabled;
  fetched := fun _ => inl disabled;
  timedtext := inr (Response 404 "" "Not Found" "" (inl not_json));
  generation := fun _ => inr (ok_text "- a summary");
  parsed := no_parser;
  dumps := payload_tag
|}.

Definition blocked : exn :=
  Exc CouldNotRetrieveTranscript "Request to YouTube failed: 429 Client Error".

(** The manual track is missing and the request for the auto-generated
    one is turned away. *)
Definition blocked_at_auto : script := {|
  en_track := inl no_transcript;
  auto_track := inl blocked;
  tracks := inr [];
  fetched := fun _ => inl no_transcript;
  timedtext := inr (Response 404 "" "Not Found" "" (inl not_json));
  generation := fun _ => inr (ok_text "- a summary");
  parsed := no_parser;
  dumps := payload_tag
|}.

(** The disabled signal comes with the track list only. *)
Definition disabled_at_listing : script := {|
  en_track := inl no_transcript;
  auto_track := inl no_transcript;
  tracks := inl disabled;
  fetched := fun _ => inl disabled;
  timedtext := inr (Response 404 "" "Not Found" "" (inl not_json));
  generation := fun _ => inr (ok_text "- a summary");
  parsed := no_parser;
  dumps := payload_tag
|}.

Definition two_lines : string :=
  "<transcript><text>a</text><text>b</text></transcript>".

Definition no_lines : string := "<transcript></transcript>".

(** An XML parser for the two documents above. *)
Definition parse_examples (body : string) : result element :=
  if String.eqb body two_lines then
    inr (Element "transcript" None
           [Element "text" (Some "a") []; Element "text" (Some "b") []])
  else if String.eqb body no_lines then
    inr (Element "transcript" None [])
  else no_parser body.

(** No track at all; the timed-text endpoint answers with [body]. *)
Definition scrape (body : string) : script := {|
  en_track := inl no_transcript;
  auto_track := inl no_transcript;
  tracks := inr [];
  fetched := fun _ => inl no_transcript;
  timedtext := inr (Response 200 body "OK" "" (inl not_json));
  generation := fun _ => inr (ok_text "- a summary");
  parsed := parse_examples;
  dumps := payload_tag
|}.

(** The service is down twice, then answers. *)
Definition recovers : script := {|
  en_track := inr [Segment "Hello"; Segment "world"];
  auto_track := inl no_transcript;
  tracks := inr [];
  fetched := fun _ => inl no_transcript;
  timedtext := inr (Response 404 "" "Not Found" "" (inl not_json));
  generation := fun n => if n <? 2 then inr unavailable
                         else inr (ok_text "- a greeting");
  parsed := no_parser;
  dumps := payload_tag
|}.

End Scripted.

(* ================================================================== *)
(** * Calls and budgets *)
(* ================================================================== *)

Module Calls.
Import PyStr Py Services Run Extractor App Spec.

(** The track is not plain English. *)
Definition is_foreign (t : transcript) : bool :=
  negb (String.eqb (language_code t) "en").

(** The sequences of calls [get_transcript video_id] can make. *)
Inductive fetch_calls (video_id : string) : list event -> Prop :=
| calls_english r :
    fetch_calls video_id [EvGetTranscript video_id ["en"] r]
| calls_english_scrape e g :
    fetch_calls video_id
      [EvGetTranscript video_id ["en"] (inl e);
       EvHttpGet (scrape_url video_id) g]
| calls_auto e r :
    fetch_calls video_id
      [EvGetTranscript video_id ["en"] (inl e);
       EvGetTranscript video_id ["a.en"] r]
| calls_listing e1 e2 r :
    fetch_calls video_id
      [EvGetTranscript video_id ["en"] (inl e1);
       EvGetTranscript video_id ["a.en"] (inl e2);
       EvListTranscripts video_id r]
| calls_listing_scrape e1 e2 ts g :
    fetch_calls video_id
      [EvGetTranscript video_id ["en"] (inl e1);
       EvGetTranscript video_id ["a.en"] (inl e2);
       EvListTranscripts video_id (inr ts);
       EvHttpGet (scrape_url video_id) g]
| calls_fetch e1 e2 ts t e :
    fetch_calls video_id
      [EvGetTranscript video_id ["en"] (inl e1);
       EvGetTranscript video_id ["a.en"] (inl e2);
       EvListTranscripts video_id (inr ts);
       EvFetch t (inl e)]
| calls_translate e1 e2 ts t segs data p :
    fetch_calls video_id
      [EvGetTranscript video_id ["en"] (inl e1);
       EvGetTranscript video_id ["a.en"] (inl e2);
       EvListTranscripts video_id (inr ts);
       EvFetch t (inr segs);
       EvHttpPost GEMINI_URL json_headers data p].

Definition is_post (ev : event) : bool :=
  match ev with EvHttpPost _ _ _ _ => true | _ => false end.

Definition is_get (ev : event) : bool :=
  match ev with EvHttpGet _ _ => true | _ => false end.


(** The delays of [k] successive retries that start at [delay]. *)
Fixpoint backoff (delay : Z) (k : nat) : list Z :=
  match k with
  | O => []
  | Datatypes.S k' => delay :: backoff (delay * 2)%Z k'
  end.

(** The event is a POST of [data] to the generation service, or a sleep. *)
Definition post_or_sleep (data : string) (ev : event) : Prop :=
  (exists a, ev = EvHttpPost GEMINI_URL json_headers data a)
  \/ (exists d, ev = EvSleep d).

End Calls.

(* ================================================================== *)
(** * More example worlds *)
(* ================================================================== *)

Module MoreWorlds.
Import PyStr Py Services Run Scripted.

Definition connection_refused : exn :=
  Exc RequestException "Connection refused".

(** The manual English track exists; the generation service cannot be
    reached. *)
Definition offline : script := {|
  en_track := inr [Segment "Hello"; Segment "world"];
  auto_track := inl no_transcript;
  tracks := inr [];
  fetched := fun _ => inl no_transcript;
  timedtext := inr (Response 404 "" "Not Found" "" (inl not_json));
  generation := fun _ => inl connection_refused;
  parsed := no_parser;
  dumps := payload_tag
|}.

(** The generation service answers 200 with an empty list of candidates. *)
Definition no_candidates : script := {|
  en_track := inr [Segment "Hello"; Segment "world"];
  auto_track := inl no_transcript;
  tracks := inr [];
  fetched := fun _ => inl no_transcript;
  timedtext := inr (Response 404 "" "Not Found" "" (inl not_json));
  generation := fun _ =>
    inr (http 200 "OK" "{...}" (inr (JObj [("candidates", JArr [])])));
  parsed := no_parser;
  dumps := payload_tag
|}.

(** Only a French track is listed, and fetching it fails. *)
Definition french_unfetchable : script := {|
  en_track := inl no_transcript;
  auto_track := inl no_transcript;
  tracks := inr [english_track; french_track];
  fetched := fun _ => inl blocked;
  timedtext := inr (Response 404 "" "Not Found" "" (inl not_json));
  generation := fun _ => inr (ok_text "Hello world");
  parsed := no_parser;
  dumps := payload_tag
|}.

(** Only a French track can be fetched, and the generation service cannot
    be reached. *)
Definition french_offline : script := {|
  en_track := inl no_transcript;
  auto_track := inl no_transcript;
  tracks := inr [english_track; french_track];
  fetched := fun _ => inr [Segment "Bonjour"; Segment "le"; Segment "monde"];
  timedtext := inr (Response 404 "" "Not Found" "" (inl not_json));
  generation := fun _ => inl connection_refused;
  parsed := no_parser;
  dumps := payload_tag
|}.

(** The very first request is turned away. *)
Definition blocked_at_once : script := {|
  en_track := inl blocked;
  auto_track := inl blocked;
  tracks := inl blocked;
  fetched := fun _ => inl blocked;
  timedtext := inr (Response 404 "" "Not Found" "" (inl not_json));
  generation := fun _ => inr (ok_text "- a summary");
  parsed := no_parser;
  dumps := payload_tag
|}.

(** The transcript service cannot be reached at all. *)
Definition unreachable : script := {|
  en_track := inl connection_refused;
  auto_track := inl connection_refused;
  tracks := inl connection_refused;
  fetched := fun _ => inl connection_refused;
  timedtext := inl connection_refused;
  generation := fun _ => inl connection_refused;
  parsed := no_parser;
  dumps := payload_tag
|}.

End MoreWorlds.

(* ================================================================== *)
(** * Properties *)
(* ================================================================== *)

Import PyStr UrlLib Py Services Run Extractor App Spec Unfolded.

(** Unfolds the combinators of a computation, leaving the calls. *)
Ltac run_steps := unfold try_except, bind, attempt, call, lift, ret, raise.

(** ** The extractor *)

Lemma dict_get_add_same k v d :
  dict_get k (dict_add k v d) =
  match dict_get k d with
  | Some (v0, vs) => Some (v0, (vs ++ [v])%list)
  | None => Some (v, [])
  end.
Proof.
  induction d as [|[k' [v0 vs]] d IH]; simpl.
  - now rewrite String.eqb_refl.
  - destruct (String.eqb k k') eqn:E; simpl; rewrite E; auto.
Qed.

Lemma dict_get_add_other k k' v d :
  String.eqb k k' = false -> dict_get k (dict_add k' v d) = dict_get k d.
Proof.
  intros Hk. induction d as [|[k2 [v0 vs]] d IH]; simpl.
  - now rewrite Hk.
  - destruct (String.eqb k' k2) eqn:E; simpl.
    + apply String.eqb_eq in E; subst k2. now rewrite Hk.
    + destruct (String.eqb k k2); auto.
Qed.

Lemma dict_get_fold k pairs : forall d,
  dict_get k (fold_left (fun d nv => dict_add (fst nv) (snd nv) d) pairs d) =
  match dict_get k d, values_of k pairs with
  | Some (v0, vs), l => Some (v0, (vs ++ l)%list)
  | None, [] => None
  | None, v :: l => Some (v, l)
  end.
Proof.
  unfold values_of.
  induction pairs as [|[n v] pairs IH]; intros d; simpl.
  - destruct (dict_get k d) as [[v0 vs]|]; auto. now rewrite app_nil_r.
  - rewrite IH. destruct (String.eqb k n) eqn:E; simpl.
    + apply String.eqb_eq in E; subst n. rewrite dict_get_add_same.
      destruct (dict_get k d) as [[v0 vs]|]; auto.
      now rewrite <- app_assoc.
    + now rewrite dict_get_add_other.
Qed.

Lemma parse_qs_get k qs :
  dict_get k (parse_qs qs) =
  match values_of k (parse_qsl qs) with
  | [] => None
  | v :: l => Some (v, l)
  end.
Proof. unfold parse_qs. now rewrite dict_get_fold. Qed.

Lemma append_cancel_l p : forall a b : string, p ++ a = p ++ b -> a = b.
Proof.
  induction p as [|c p IH]; simpl; intros a b H; auto.
  inversion H; auto.
Qed.

Lemma strip_prefix_iff p : forall s r, strip_prefix p s = Some r <-> s = p ++ r.
Proof.
  induction p as [|a p IH]; intros s r; simpl.
  - destruct s; split; intros H; inversion H; subst; auto.
  - destruct s as [|b s]; simpl.
    + split; discriminate.
    + destruct (Ascii.eqb a b) eqn:E.
      * apply Ascii.eqb_eq in E; subst b. rewrite IH.
        split; intros H; [now subst | now inversion H].
      * split; [discriminate|]. intros H; inversion H; subst.
        now rewrite Ascii.eqb_refl in E.
Qed.

Lemma take_id_iff n : forall s id,
  take_id n s = Some id <->
  (String.length id = n /\ forallb is_id_char (list_ascii_of_string id) = true
   /\ exists post, s = id ++ post).
Proof.
  induction n as [|n IH]; intros s id; simpl.
  - split.
    + intros H; inversion H; subst. simpl. repeat split; auto. now exists s.
    + intros (Hl & _ & _). destruct id; [reflexivity|discriminate].
  - destruct s as [|c s].
    + split; [discriminate|]. intros (Hl & _ & post & Hp).
      destruct id; simpl in *; discriminate.
    + destruct (is_id_char c) eqn:Hc.
      * destruct (take_id n s) as [id'|] eqn:Ht.
        -- split.
           ++ intros H; inversion H; subst. apply IH in Ht.
              destruct Ht as (Hl & Hall & post & Hp). simpl.
              rewrite Hc, Hall, Hl, Hp. repeat split; auto. now exists post.
           ++ intros (Hl2 & Hall2 & post2 & Hp2).
              destruct id as [|d id]; simpl in *; [discriminate|].
              inversion Hp2; subst. apply andb_prop in Hall2.
              destruct Hall2 as [_ Hall2]. injection Hl2 as Hl2.
              assert (Hs : take_id n (id ++ post2) = Some id).
              { apply IH. repeat split; auto. now exists post2. }
              congruence.
        -- split; [discriminate|]. intros (Hl2 & Hall2 & post2 & Hp2).
           destruct id as [|d id]; simpl in *; [discriminate|].
           inversion Hp2; subst. apply andb_prop in Hall2.
           destruct Hall2 as [_ Hall2]. injection Hl2 as Hl2.
           assert (Hs : take_id n (id ++ post2) = Some id).
           { apply IH. repeat split; auto. now exists post2. }
           congruence.
      * split; [discriminate|]. intros (Hl2 & Hall2 & post2 & Hp2).
        destruct id as [|d id]; simpl in *; [discriminate|].
        inversion Hp2; subst. rewrite Hc in Hall2. discriminate.
Qed.

Lemma match_here_iff s id :
  match_here s = Some id <->
  (is_video_id id /\ exists post, s = "youtu.be/" ++ id ++ post).
Proof.
  unfold match_here, is_video_id.
  destruct (strip_prefix "youtu.be/" s) as [rest|] eqn:Hp.
  - apply strip_prefix_iff in Hp. rewrite take_id_iff. subst s. split.
    + intros (Hl & Hall & post & Hr). subst rest. repeat split; auto.
      now exists post.
    + intros ((Hl & Hall) & post & Hs). repeat split; auto.
      exists post. now apply append_cancel_l in Hs.
  - split; [discriminate|]. intros (_ & post & Hs).
    assert (H : strip_prefix "youtu.be/" s = Some (id ++ post))
      by now apply strip_prefix_iff.
    congruence.
Qed.

Lemma re_search_eq s :
  re_search s =
  match match_here s with
  | Some id => Some id
  | None => match s with
            | EmptyString => None
            | String _ s' => re_search s'
            end
  end.
Proof. destruct s; reflexivity. Qed.

Lemma re_search_sound s : forall id,
  re_search s = Some id ->
  is_video_id id /\ exists pre post, s = pre ++ "youtu.be/" ++ id ++ post.
Proof.
  induction s as [|c s IH]; intros id H; rewrite re_search_eq in H.
  - destruct (match_here "") eqn:Hm; [|discriminate].
    inversion H; subst. apply match_here_iff in Hm.
    destruct Hm as (Hv & post & Hs). split; auto. now exists "", post.
  - destruct (match_here (String c s)) eqn:Hm.
    + inversion H; subst. apply match_here_iff in Hm.
      destruct Hm as (Hv & post & Hs). split; auto. now exists "", post.
    + apply IH in H. destruct H as (Hv & pre & post & Hs). split; auto.
      exists (String c pre), post. simpl. now rewrite Hs.
Qed.

Lemma re_search_complete pre : forall id post,
  is_video_id id ->
  re_search (pre ++ "youtu.be/" ++ id ++ post) <> None.
Proof.
  induction pre as [|c pre IH]; intros id post Hv; rewrite re_search_eq.
  - assert (Hm : match_here ("" ++ "youtu.be/" ++ id ++ post) = Some id).
    { apply match_here_iff. split; auto. now exists post. }
    rewrite Hm. discriminate.
  - destruct (match_here _); [discriminate|]. simpl. now apply IH.
Qed.

Lemma truthy_app_r a b : truthy b = true -> truthy (a ++ b) = true.
Proof. destruct a; simpl; auto. Qed.

Lemma truthy_app_l a b : truthy a = true -> truthy (a ++ b) = true.
Proof. destruct a; simpl; [discriminate | auto]. Qed.

Lemma utf8_replace_truthy s : truthy (utf8_replace s) = truthy s.
Proof.
  destruct s as [|c1 r1]; [reflexivity|]. cbn [utf8_replace truthy].
  repeat match goal with
         | |- context [if ?b then _ else _] => destruct b
         | |- context [match ?r with EmptyString => _ | String _ _ => _ end] =>
             destruct r
         end; reflexivity.
Qed.

Lemma unquote_to_bytes_truthy s : truthy (unquote_to_bytes s) = truthy s.
Proof.
  destruct s as [|c s]; [reflexivity|]. cbn [unquote_to_bytes truthy].
  repeat match goal with
         | |- context [if ?b then _ else _] => destruct b
         | |- context [match ?r with EmptyString => _ | String _ _ => _ end] =>
             destruct r
         | |- context [match hex_value ?a with Some _ => _ | None => _ end] =>
             destruct (hex_value a)
         end; reflexivity.
Qed.

Lemma unquote_run_truthy run : truthy (unquote_run run) = truthy run.
Proof.
  unfold unquote_run. now rewrite utf8_replace_truthy, unquote_to_bytes_truthy.
Qed.

Lemma unquote_parts_truthy s : forall run,
  truthy (unquote_parts s run) = truthy s || truthy run.
Proof.
  induction s as [|c s IH]; intros run; simpl.
  - apply unquote_run_truthy.
  - destruct (code c <? 128).
    + rewrite IH. rewrite (truthy_app_r run (String c "")) by reflexivity.
      apply orb_true_r.
    + apply truthy_app_r. reflexivity.
Qed.

Lemma unquote_truthy s : truthy (unquote s) = truthy s.
Proof.
  unfold unquote. destruct (negb (mem "%" s)); auto.
  rewrite unquote_parts_truthy. apply orb_false_r.
Qed.

Lemma replace_char_truthy a b s : truthy (replace_char a b s) = truthy s.
Proof. destruct s; reflexivity. Qed.

Lemma parse_field_value f n v : parse_field f = Some (n, v) -> truthy v = true.
Proof.
  unfold parse_field. destruct (negb (truthy f)); [discriminate|].
  destruct (after_first "=" f) as [raw|]; [|discriminate].
  destruct (truthy raw) eqn:Hr; [|discriminate].
  intros H; inversion H; subst.
  now rewrite unquote_truthy, replace_char_truthy.
Qed.

Lemma collect_fields_values fields n v :
  In (n, v) (collect_fields fields) -> truthy v = true.
Proof.
  induction fields as [|f fields IH]; simpl; [tauto|].
  destruct (parse_field f) as [[n' v']|] eqn:Hf; auto.
  intros [H|H]; auto. inversion H; subst. eapply parse_field_value; eauto.
Qed.

Lemma values_of_truthy k qs v :
  In v (values_of k (parse_qsl qs)) -> truthy v = true.
Proof.
  unfold values_of. intros Hin.
  apply in_map_iff in Hin. destruct Hin as ([n v0] & Hv & Hin).
  simpl in Hv; subst v0. apply filter_In in Hin. destruct Hin as [Hin _].
  unfold parse_qsl in Hin. eapply collect_fields_values; eauto.
Qed.

Lemma parse_field_keeps f :
  parse_field f =
  match parse_field_keep_blank f with
  | Some nv => if truthy (snd nv) then Some nv else None
  | None => None
  end.
Proof.
  unfold parse_field, parse_field_keep_blank.
  destruct (negb (truthy f)); [reflexivity|].
  destruct (after_first "=" f) as [raw|]; cbn [snd].
  - rewrite unquote_truthy, replace_char_truthy.
    now destruct (truthy raw).
  - reflexivity.
Qed.

Lemma collect_fields_keeps fields :
  collect_fields fields =
  filter (fun nv => truthy (snd nv))
    (flat_map (fun f => match parse_field_keep_blank f with
                        | Some nv => [nv]
                        | None => []
                        end) fields).
Proof.
  induction fields as [|f fields IH]; [reflexivity|].
  cbn [collect_fields flat_map]. rewrite filter_app, <- IH, parse_field_keeps.
  destruct (parse_field_keep_blank f) as [nv|]; [|reflexivity].
  cbn [filter]. now destruct (truthy (snd nv)).
Qed.

(** The values [parse_qs] keeps for a name are the non-empty ones among
    those the query string writes for it. *)
Lemma values_of_nonblank k qs :
  values_of k (parse_qsl qs) = nonblank_values k qs.
Proof.
  unfold nonblank_values, values_of, parse_qsl, parse_qsl_keep_blank.
  rewrite collect_fields_keeps.
  induction (flat_map _ _) as [|[n v] l IH]; [reflexivity|].
  cbn [filter map fst snd].
  destruct (truthy v) eqn:Hv; destruct (String.eqb k n) eqn:Hk;
    cbn [filter map fst snd]; rewrite ?Hk, ?Hv; cbn [filter map fst snd];
    rewrite ?Hv; now rewrite IH.
Qed.

Lemma is_video_id_truthy id : is_video_id id -> truthy id = true.
Proof. intros [Hl _]. destruct id; [discriminate|reflexivity]. Qed.

Section ExtractorFacts.
Context {svc : Services}.

Lemma get_video_id_cases url :
  match urlparse_query url with
  | inl e => get_video_id url = inl e
  | inr query =>
      match values_of "v" (parse_qsl query) with
      | v :: _ => get_video_id url = inr (Some v) /\ truthy v = true
      | [] => get_video_id url = inr (re_search url)
      end
  end.
Proof.
  unfold get_video_id. destruct (urlparse_query url) as [e|query]; cbn [rbind].
  - reflexivity.
  - rewrite parse_qs_get.
    destruct (values_of "v" _) as [|v vs] eqn:Hv.
    + now destruct (re_search url).
    + split; [reflexivity|].
      apply (values_of_truthy "v" query). rewrite Hv. now left.
Qed.

Lemma get_video_id_truthy url id :
  get_video_id url = inr (Some id) -> truthy id = true.
Proof.
  pose proof (get_video_id_cases url) as Hc.
  destruct (urlparse_query url) as [e|query]; [congruence|].
  destruct (values_of "v" _) as [|v vs].
  - rewrite Hc. intros Hr. apply is_video_id_truthy.
    injection Hr as Hr. now apply re_search_sound in Hr.
  - destruct Hc as [Hc Ht]. rewrite Hc. intros H; inversion H; now subst.
Qed.

(** [get_video_id] raises exactly what [urlparse] raises. *)
Lemma get_video_id_raises url e :
  get_video_id url = inl e <-> urlparse_query url = inl e.
Proof.
  pose proof (get_video_id_cases url) as Hc.
  destruct (urlparse_query url) as [e0|query].
  - rewrite Hc. split; intros H; injection H as ->; reflexivity.
  - destruct (values_of "v" _) as [|v vs].
    + rewrite Hc. split; discriminate.
    + destruct Hc as [Hc _]. rewrite Hc. split; discriminate.
Qed.

(** C9, as the code has it.  On a URL [urlparse] accepts, [get_video_id]
    returns the first value written for the query parameter [v] that is
    not empty, when there is one; otherwise the eleven characters that
    follow the leftmost [youtu.be/] they can follow; otherwise [None].
    It is a function of the URL alone. *)
Theorem get_video_id_order (url query : string) :
  urlparse_query url = inr query ->
  (forall v vs,
      nonblank_values "v" query = v :: vs ->
      get_video_id url = inr (Some v))
  /\ (nonblank_values "v" query = [] ->
      forall id, re_search url = Some id ->
        get_video_id url = inr (Some id) /\ is_video_id id
        /\ exists pre post, url = pre ++ "youtu.be/" ++ id ++ post)
  /\ (nonblank_values "v" query = [] ->
      re_search url = None ->
      get_video_id url = inr None
      /\ forall pre id post,
           is_video_id id -> url <> pre ++ "youtu.be/" ++ id ++ post).
Proof.
  intros Hq. pose proof (get_video_id_cases url) as Hc. rewrite Hq in Hc.
  rewrite values_of_nonblank in Hc. split; [|split].
  - intros v vs Hv. rewrite Hv in Hc. tauto.
  - intros Hv id Hr. rewrite Hv in Hc. rewrite Hc, Hr. split; auto.
    now apply re_search_sound.
  - intros Hv Hr. rewrite Hv in Hc. rewrite Hc, Hr. split; auto.
    intros pre id post Hid Hu. subst url.
    now apply (re_search_complete pre id post Hid).
Qed.

(** C8, as the code has it.  An extracted VideoID is either the first
    value of the query parameter [v], which is not empty and not checked
    any further, or eleven URL-safe characters found after [youtu.be/];
    extraction returns [None] exactly when [urlparse] accepts the URL and
    the URL has neither; it raises exactly when [urlparse] rejects the
    URL. *)
Theorem get_video_id_shape (url : string) :
  (forall id,
      get_video_id url = inr (Some id) ->
      exists query,
        urlparse_query url = inr query
        /\ ((exists vs, values_of "v" (parse_qsl query) = id :: vs
                        /\ id <> "")
            \/ (values_of "v" (parse_qsl query) = []
                /\ is_video_id id
                /\ exists pre post, url = pre ++ "youtu.be/" ++ id ++ post)))
  /\ (get_video_id url = inr None <->
      exists query,
        urlparse_query url = inr query
        /\ values_of "v" (parse_qsl query) = []
        /\ forall pre id post,
             is_video_id id -> url <> pre ++ "youtu.be/" ++ id ++ post)
  /\ (forall e, get_video_id url = inl e <-> urlparse_query url = inl e).
Proof.
  split; [|split; [|apply get_video_id_raises]];
    pose proof (get_video_id_cases url) as Hc;
    destruct (urlparse_query url) as [e0|query].
  - rewrite Hc. discriminate.
  - intros id Hid. exists query. split; [reflexivity|].
    destruct (values_of "v" _) as [|v vs] eqn:Hv.
    + rewrite Hc in Hid. injection Hid as Hr. right. split; auto.
      now apply re_search_sound.
    + destruct Hc as [Hc Ht]. rewrite Hc in Hid. injection Hid as <-.
      left. exists vs. split; auto. intros ->. discriminate.
  - rewrite Hc. split; [discriminate|]. intros (q & Hq & _). discriminate.
  - destruct (values_of "v" _) as [|v vs] eqn:Hv.
    + rewrite Hc. split.
      * intros Hr. injection Hr as Hr. exists query.
        split; [reflexivity|]. split; [exact Hv|].
        intros pre id post Hid Hu. subst url.
        now apply (re_search_complete pre id post Hid).
      * intros (q & Hq & Hv' & Hno).
        destruct (re_search url) as [id|] eqn:Hr; auto.
        apply re_search_sound in Hr. destruct Hr as (Hid & pre & post & Hu).
        exfalso. now apply (Hno pre id post).
    + destruct Hc as [Hc Ht]. rewrite Hc. split; [discriminate|].
      intros (q & Hq & Hv' & _). injection Hq as <-. congruence.
Qed.

End ExtractorFacts.

(** ** The fetcher, the scrape and the translator *)

Section FetcherFacts.
Context {svc : Services}.

Lemma get_fallback_captions_run video_id w :
  get_fallback_captions video_id w =
  (scrape_result video_id (fst (requests_get (scrape_url video_id) w)),
   snd (requests_get (scrape_url video_id) w),
   [EvHttpGet (scrape_url video_id)
              (fst (requests_get (scrape_url video_id) w))]).
Proof.
  unfold get_fallback_captions, scrape_url, scrape_result, scrape_failed,
    raise_new, new_NoTranscriptFound.
  run_steps.
  destruct (requests_get _ w) as [[e|resp] w']; cbn [fst snd].
  - reflexivity.
  - destruct ((status_code resp =? 200)%Z && negb (is_blank (text resp))).
    + unfold bind, lift. destruct (ET_fromstring (text resp)); reflexivity.
    + reflexivity.
Qed.

Lemma scrape_result_failure video_id r e :
  scrape_result video_id r = inl e -> e = scrape_failed.
Proof.
  unfold scrape_result. destruct r as [e0|resp].
  - intros H; inversion H; reflexivity.
  - destruct (_ && _).
    + destruct (ET_fromstring _); intros H; inversion H; reflexivity.
    + intros H; inversion H; reflexivity.
Qed.


Lemma isinstance_no_transcript e :
  isinstance e NoTranscriptFound = true <-> exn_class e = NoTranscriptFound.
Proof.
  unfold isinstance. destruct (exn_class e); simpl; split;
    intros H; try discriminate; reflexivity.
Qed.

Lemma translate_text_run text source_lang w :
  let data := translation_data text source_lang in
  translate_text text source_lang w =
  (inr (translation_value text
          (fst (requests_post GEMINI_URL json_headers data w))),
   snd (requests_post GEMINI_URL json_headers data w),
   [EvHttpPost GEMINI_URL json_headers data
               (fst (requests_post GEMINI_URL json_headers data w))]).
Proof.
  cbv zeta.
  unfold translate_text, translation_data, translation_value, rbind,
    translation_failed.
  run_steps.
  destruct (requests_post _ _ _ w) as [[e|resp] w']; cbn [fst snd].
  - reflexivity.
  - destruct (raise_for_status resp) as [e|[]]; [reflexivity|].
    destruct (json_result resp) as [e|result]; [reflexivity|].
    destruct (first_text result (JStr text)); reflexivity.
Qed.

Lemma translate_first_foreign_skip video_id pre : forall rest,
  Forall (fun t => language_code t = "en") pre ->
  translate_first_foreign video_id (pre ++ rest)%list =
  translate_first_foreign video_id rest.
Proof.
  induction pre as [|t pre IH]; intros rest Hpre; [reflexivity|].
  inversion Hpre as [|? ? Ht Hpre']; subst. cbn [app translate_first_foreign].
  rewrite Ht. cbn. now apply IH.
Qed.

(** [get_transcript] once the manual English track is known to be missing. *)
Lemma get_transcript_no_english video_id w e w1 :
  yt_get_transcript video_id ["en"] w = (inl e, w1) ->
  isinstance e NoTranscriptFound = true ->
  get_transcript video_id w =
  match yt_get_transcript video_id ["a.en"] w1 with
  | (inr segs, w2) =>
      (inr (JStr (join_texts segs)), w2,
       [EvGetTranscript video_id ["en"] (inl e);
        EvGetTranscript video_id ["a.en"] (inr segs)])
  | (inl e2, w2) =>
      if isinstance e2 NoTranscriptFound then
        match yt_list_transcripts video_id w2 with
        | (inr ts, w3) =>
            match translate_first_foreign video_id ts w3 with
            | (r, w4, t) =>
                (r, w4,
                 ([EvGetTranscript video_id ["en"] (inl e);
                   EvGetTranscript video_id ["a.en"] (inl e2);
                   EvListTranscripts video_id (inr ts)] ++ t)%list)
            end
        | (inl e3, w3) =>
            (inl e3, w3,
             [EvGetTranscript video_id ["en"] (inl e);
              EvGetTranscript video_id ["a.en"] (inl e2);
              EvListTranscripts video_id (inl e3)])
        end
      else
        (inl (Exc Exception ("Transcript retrieval error: " ++ exn_str e2)),
         w2,
         [EvGetTranscript video_id ["en"] (inl e);
          EvGetTranscript video_id ["a.en"] (inl e2)])
  end.
Proof.
  intros H1 Hc.
  unfold get_transcript, raise_new, new_CouldNotRetrieveTranscript; run_steps.
  rewrite H1, Hc.
  destruct (yt_get_transcript video_id ["a.en"] w1) as [[e2|segs] w2].
  - destruct (isinstance e2 NoTranscriptFound); [|reflexivity].
    destruct (yt_list_transcripts video_id w2) as [[e3|ts] w3]; [reflexivity|].
    destruct (translate_first_foreign video_id ts w3) as [[r w4] t].
    reflexivity.
  - reflexivity.
Qed.

(** [get_transcript] when the first request fails otherwise. *)
Lemma get_transcript_other_failure video_id w e w1 :
  yt_get_transcript video_id ["en"] w = (inl e, w1) ->
  isinstance e NoTranscriptFound = false ->
  get_transcript video_id w =
  if isinstance e TranscriptsDisabled then
    match get_fallback_captions video_id w1 with
    | (inr captions, w2, t) =>
        (inr (JStr captions), w2,
         EvGetTranscript video_id ["en"] (inl e) :: t)
    | (inl e2, w2, t) =>
        (inl e2, w2, EvGetTranscript video_id ["en"] (inl e) :: t)
    end
  else if isinstance e CouldNotRetrieveTranscript then
    (inl (Exc CouldNotRetrieveTranscript
            (could_not_retrieve_str
               ("Transcript Error: Could not retrieve transcript for video (ID: "
                ++ video_id ++ "). Reason: " ++ exn_str e))),
     w1, [EvGetTranscript video_id ["en"] (inl e)])
  else (inl e, w1, [EvGetTranscript video_id ["en"] (inl e)]).
Proof.
  intros H1 Hc.
  unfold get_transcript, raise_new, new_CouldNotRetrieveTranscript; run_steps.
  rewrite H1, Hc.
  destruct (isinstance e TranscriptsDisabled).
  - destruct (get_fallback_captions video_id w1) as [[[e2|c] w2] t];
      cbn; rewrite ?app_nil_r; reflexivity.
  - destruct (isinstance e CouldNotRetrieveTranscript); reflexivity.
Qed.

End FetcherFacts.

Section Fetcher.
Context {svc : Services}.

(** C4.  [get_transcript] first requests the English track; when that
    succeeds it returns the segment texts joined in order with single
    spaces and calls nothing else.  When the request fails with
    [NoTranscriptFound] it requests the auto-generated track [a.en], whose
    segments it returns joined the same way; on any other failure of the
    first request no request for [a.en] is made. *)
Theorem english_tracks_first (video_id : string) (w : World) :
  (forall segs w1,
      yt_get_transcript video_id ["en"] w = (inr segs, w1) ->
      get_transcript video_id w =
      (inr (JStr (join " " (map seg_text segs))), w1,
       [EvGetTranscript video_id ["en"] (inr segs)]))
  /\ (forall e w1 segs w2,
      yt_get_transcript video_id ["en"] w = (inl e, w1) ->
      exn_class e = NoTranscriptFound ->
      yt_get_transcript video_id ["a.en"] w1 = (inr segs, w2) ->
      get_transcript video_id w =
      (inr (JStr (join " " (map seg_text segs))), w2,
       [EvGetTranscript video_id ["en"] (inl e);
        EvGetTranscript video_id ["a.en"] (inr segs)]))
  /\ (forall e w1,
      yt_get_transcript video_id ["en"] w = (inl e, w1) ->
      exn_class e <> NoTranscriptFound ->
      forall ev, In ev (trace (get_transcript video_id w)) ->
                 ~ requests_track ["a.en"] ev).
Proof.
  split; [|split].
  - intros segs w1 H.
    unfold get_transcript; run_steps.
    now rewrite H.
  - intros e w1 segs w2 H1 Hc H2.
    rewrite (get_transcript_no_english _ _ _ _ H1)
      by now apply isinstance_no_transcript.
    now rewrite H2.
  - intros e w1 H1 Hc ev Hin.
    assert (Hi : isinstance e NoTranscriptFound = false).
    { destruct (isinstance e NoTranscriptFound) eqn:Hi; auto.
      now apply isinstance_no_transcript in Hi. }
    rewrite (get_transcript_other_failure _ _ _ _ H1 Hi) in Hin.
    assert (Hfirst : ~ requests_track ["a.en"]
                       (EvGetTranscript video_id ["en"] (inl e)))
      by (simpl; discriminate).
    destruct (isinstance e TranscriptsDisabled).
    + rewrite get_fallback_captions_run in Hin.
      destruct (scrape_result _ _); cbn in Hin;
        destruct Hin as [<-|[<-|[]]]; auto.
    + destruct (isinstance e CouldNotRetrieveTranscript); cbn in Hin;
        destruct Hin as [<-|[]]; auto.
Qed.

(** C5.  When both English requests fail with [NoTranscriptFound] and the
    tracks of the video can be listed, [get_transcript] fetches the first
    track whose language code is not ["en"], joins its segments with
    single spaces, hands the text and the track's language name to
    [translate_text] and returns what that returns; when every track has
    the code ["en"] it goes on to the fallback scrape. *)
Theorem foreign_track_is_translated (video_id : string) (w : World)
    (e1 e2 : exn) (w1 w2 w3 : World) (ts : list transcript) :
  yt_get_transcript video_id ["en"] w = (inl e1, w1) ->
  exn_class e1 = NoTranscriptFound ->
  yt_get_transcript video_id ["a.en"] w1 = (inl e2, w2) ->
  exn_class e2 = NoTranscriptFound ->
  yt_list_transcripts video_id w2 = (inr ts, w3) ->
  let enumerated :=
    [EvGetTranscript video_id ["en"] (inl e1);
     EvGetTranscript video_id ["a.en"] (inl e2);
     EvListTranscripts video_id (inr ts)] in
  (forall pre t post segs w4,
      ts = (pre ++ t :: post)%list ->
      Forall (fun t' => language_code t' = "en") pre ->
      language_code t <> "en" ->
      yt_fetch t w3 = (inr segs, w4) ->
      let translated :=
        translate_text (join " " (map seg_text segs)) (language t) w4 in
      get_transcript video_id w =
      (outcome translated, world_after translated,
       (enumerated ++ EvFetch t (inr segs) :: trace translated)%list))
  /\ (Forall (fun t' => language_code t' = "en") ts ->
      let scraped := get_fallback_captions video_id w3 in
      get_transcript video_id w =
      (match outcome scraped with
       | inr captions => inr (JStr captions)
       | inl e => inl e
       end,
       world_after scraped, (enumerated ++ trace scraped)%list)).
Proof.
  intros H1 Hc1 H2 Hc2 H3 enumerated.
  apply isinstance_no_transcript in Hc1. apply isinstance_no_transcript in Hc2.
  rewrite (get_transcript_no_english _ _ _ _ H1 Hc1), H2, Hc2, H3.
  subst enumerated. split.
  - intros pre t post segs w4 Hts Hpre Ht Hf translated. subst ts.
    rewrite (translate_first_foreign_skip _ _ _ Hpre).
    cbn [translate_first_foreign].
    destruct (String.eqb (language_code t) "en") eqn:Heq.
    { apply String.eqb_eq in Heq. contradiction. }
    cbn [negb]. unfold bind at 1, call at 1. rewrite Hf.
    unfold join_texts. subst translated.
    destruct (translate_text (join " " (map seg_text segs)) (language t) w4)
      as [[r w5] t5].
    reflexivity.
  - intros Hall scraped.
    rewrite <- (app_nil_r ts) at 1.
    rewrite (translate_first_foreign_skip _ _ _ Hall).
    cbn [translate_first_foreign]. subst scraped.
    unfold bind, ret.
    destruct (get_fallback_captions video_id w3) as [[[e|c] w4] t4];
      cbn; rewrite ?app_nil_r; reflexivity.
Qed.

(** C3, as the code has it.  A [TranscriptsDisabled] raised by the first
    (English) request sends [get_transcript] straight to the fallback
    scrape, and the caller then sees what the scrape gives, captions or
    the scrape's own failure, never the disabled error.  Raised by the request for the
    auto-generated track it is re-raised as a plain [Exception]
    "Transcript retrieval error: ..." without any scrape; raised while the
    tracks are listed it reaches the caller as it is. *)
Theorem disabled_signal (video_id : string) (w : World) :
  (forall e w1,
      yt_get_transcript video_id ["en"] w = (inl e, w1) ->
      exn_class e = TranscriptsDisabled ->
      let scraped := get_fallback_captions video_id w1 in
      get_transcript video_id w =
      (match outcome scraped with
       | inr captions => inr (JStr captions)
       | inl e' => inl e'
       end,
       world_after scraped,
       EvGetTranscript video_id ["en"] (inl e) :: trace scraped)
      /\ (forall e', outcome (get_transcript video_id w) = inl e' ->
                     outcome scraped = inl e'
                     /\ exn_class e' <> TranscriptsDisabled))
  /\ (forall e1 w1 e2 w2,
      yt_get_transcript video_id ["en"] w = (inl e1, w1) ->
      exn_class e1 = NoTranscriptFound ->
      yt_get_transcript video_id ["a.en"] w1 = (inl e2, w2) ->
      exn_class e2 = TranscriptsDisabled ->
      get_transcript video_id w =
      (inl (Exc Exception ("Transcript retrieval error: " ++ exn_str e2)),
       w2,
       [EvGetTranscript video_id ["en"] (inl e1);
        EvGetTranscript video_id ["a.en"] (inl e2)]))
  /\ (forall e1 w1 e2 w2 e3 w3,
      yt_get_transcript video_id ["en"] w = (inl e1, w1) ->
      exn_class e1 = NoTranscriptFound ->
      yt_get_transcript video_id ["a.en"] w1 = (inl e2, w2) ->
      exn_class e2 = NoTranscriptFound ->
      yt_list_transcripts video_id w2 = (inl e3, w3) ->
      exn_class e3 = TranscriptsDisabled ->
      get_transcript video_id w =
      (inl e3, w3,
       [EvGetTranscript video_id ["en"] (inl e1);
        EvGetTranscript video_id ["a.en"] (inl e2);
        EvListTranscripts video_id (inl e3)])).
Proof.
  split; [|split].
  - intros e w1 H1 Hc scraped.
    assert (Hn : isinstance e NoTranscriptFound = false)
      by (unfold isinstance; now rewrite Hc).
    assert (Hd : isinstance e TranscriptsDisabled = true)
      by (unfold isinstance; now rewrite Hc).
    rewrite (get_transcript_other_failure _ _ _ _ H1 Hn), Hd.
    subst scraped. rewrite get_fallback_captions_run.
    unfold outcome, world_after, trace. cbn [fst snd].
    destruct (scrape_result video_id _) as [e'|c] eqn:Hs.
    + split; [reflexivity|]. intros e'' H. injection H as <-.
      split; [reflexivity|].
      rewrite (scrape_result_failure _ _ _ Hs). discriminate.
    + split; [reflexivity|]. discriminate.
  - intros e1 w1 e2 w2 H1 Hc1 H2 Hc2.
    apply isinstance_no_transcript in Hc1.
    rewrite (get_transcript_no_english _ _ _ _ H1 Hc1), H2.
    unfold isinstance. now rewrite Hc2.
  - intros e1 w1 e2 w2 e3 w3 H1 Hc1 H2 Hc2 H3 Hc3.
    apply isinstance_no_transcript in Hc1.
    apply isinstance_no_transcript in Hc2.
    now rewrite (get_transcript_no_english _ _ _ _ H1 Hc1), H2, Hc2, H3.
Qed.

(** C6, as the code has it.  [get_fallback_captions] makes one GET to the
    timed-text endpoint.  On status 200 with a body that is not blank and
    that parses, it returns the non-empty texts of the [text] children of
    the root joined with single spaces (the empty string when there are
    none).  It returns nothing and raises when the status is not 200,
    when the body is empty or blank, when parsing fails and when the GET
    itself fails. *)
Theorem fallback_scrape (video_id : string) (w : World) :
  let answer := fst (requests_get (scrape_url video_id) w) in
  let run := get_fallback_captions video_id w in
  trace run = [EvHttpGet (scrape_url video_id) answer]
  /\ (forall resp root,
      answer = inr resp -> status_code resp = 200%Z ->
      is_blank (text resp) = false ->
      ET_fromstring (text resp) = inr root ->
      outcome run = inr (join " " (caption_lines root)))
  /\ (forall resp,
      answer = inr resp ->
      status_code resp <> 200%Z \/ text resp = "" \/ is_blank (text resp) = true ->
      exists raised, outcome run = inl raised)
  /\ (forall resp e,
      answer = inr resp -> status_code resp = 200%Z ->
      is_blank (text resp) = false ->
      ET_fromstring (text resp) = inl e ->
      exists raised, outcome run = inl raised)
  /\ (forall e,
      answer = inl e ->
      exists raised, outcome run = inl raised).
Proof.
  cbv zeta. rewrite get_fallback_captions_run.
  unfold outcome, trace. cbn [fst snd].
  split; [reflexivity|]. split; [|split; [|split]].
  - intros resp root Ha Hs Hb Hp. rewrite Ha. unfold scrape_result.
    rewrite Hs, Hb, Hp. reflexivity.
  - intros resp Ha Hbad. rewrite Ha. unfold scrape_result.
    assert (Hc : (status_code resp =? 200)%Z && negb (is_blank (text resp))
                 = false).
    { destruct Hbad as [Hs|[Hb|Hb]].
      - apply Z.eqb_neq in Hs. now rewrite Hs.
      - rewrite Hb. apply andb_false_r.
      - rewrite Hb. apply andb_false_r. }
    rewrite Hc. eauto.
  - intros resp e Ha Hs Hb Hp. rewrite Ha. unfold scrape_result.
    rewrite Hs, Hb, Hp. cbn. eauto.
  - intros e Ha. rewrite Ha. cbn. eauto.
Qed.


End Fetcher.

(** ** The summarizer *)

Section SummarizerFacts.
Context {svc : Services}.

Lemma outcome_triple {A} (r : result A) (w : World) (t : list event) :
  outcome (r, w, t) = r.
Proof. reflexivity. Qed.

Lemma trace_triple {A} (r : result A) (w : World) (t : list event) :
  trace (r, w, t) = t.
Proof. reflexivity. Qed.

Lemma summary_loop_step payload attempt_no rest delay response w :
  let data := json_dumps payload in
  let answer := fst (requests_post GEMINI_URL json_headers data w) in
  let w1 := snd (requests_post GEMINI_URL json_headers data w) in
  let post := EvHttpPost GEMINI_URL json_headers data answer in
  summary_loop payload (attempt_no :: rest) delay response w =
  match decide_attempt attempt_no response answer with
  | Return summary => (inr (Some summary), w1, [post])
  | Fail e => (inl e, w1, [post])
  | Retry response' =>
      let next := summary_loop payload rest (delay * 2)%Z response'
                               (time_sleep delay w1) in
      (outcome next, world_after next, post :: EvSleep delay :: trace next)
  end.
Proof.
  cbv zeta. cbn [summary_loop].
  unfold bind at 1, attempt, call.
  destruct (requests_post GEMINI_URL json_headers (json_dumps payload) w)
    as [[e|r] w1]; cbn [fst snd decide_attempt].
  - unfold decide_error.
    destruct (isinstance e HTTPError); [|reflexivity].
    destruct response as [r0|]; [|reflexivity].
    destruct (retryable_status (status_code r0) && (attempt_no <? retries - 1));
      [|reflexivity].
    unfold bind, sleep, outcome, world_after, trace.
    destruct (summary_loop _ _ _ _ _) as [[o w2] t]. reflexivity.
  - fold (summary_of r). destruct (summary_of r) as [e|v]; [|reflexivity].
    unfold decide_error.
    destruct (isinstance e HTTPError); [|reflexivity].
    destruct (retryable_status (status_code r) && (attempt_no <? retries - 1));
      [|reflexivity].
    unfold bind, sleep, outcome, world_after, trace.
    destruct (summary_loop _ _ _ _ _) as [[o w2] t]. reflexivity.
Qed.

Lemma decide_retry_bound attempt_no response answer response' :
  decide_attempt attempt_no response answer = Retry response' ->
  attempt_no < retries - 1.
Proof.
  assert (He : forall e r, decide_error attempt_no e r = Retry response' ->
                           attempt_no < retries - 1).
  { intros e r. unfold decide_error.
    destruct (isinstance e HTTPError); [|discriminate].
    destruct r as [r|]; [|discriminate].
    destruct (attempt_no <? retries - 1) eqn:Hlt.
    - intros _. now apply Nat.ltb_lt in Hlt.
    - rewrite andb_false_r. discriminate. }
  unfold decide_attempt. destruct answer as [e|r]; [apply He|].
  destruct (summary_of r); [apply He|discriminate].
Qed.


Lemma get_summary_gemini_run transcript w :
  let looped :=
    summary_loop (gemini_payload transcript summary_system_prompt)
                 (seq 0 retries) 2%Z None w in
  get_summary_gemini transcript w =
  (match outcome looped with
   | inl e => inl e
   | inr (Some summary) => inr summary
   | inr None => inr (JStr "Summary generation failed.")
   end, world_after looped, trace looped).
Proof.
  cbv zeta. unfold get_summary_gemini, bind, outcome, world_after, trace.
  destruct (summary_loop _ _ _ _ _) as [[[e|[v|]] w1] t]; cbn;
    rewrite ?app_nil_r; reflexivity.
Qed.










Lemma summary_loop_error_class payload attempts : forall delay response w e,
  outcome (summary_loop payload attempts delay response w) = inl e ->
  exn_class e = Exception \/ exn_class e = UnboundLocalError.
Proof.
  induction attempts as [|i attempts IH]; intros delay response w e.
  - discriminate.
  - rewrite summary_loop_step. cbv zeta.
    destruct (decide_attempt i response _) as [v|response'|e'] eqn:Hd.
    + discriminate.
    + rewrite outcome_triple. apply IH.
    + rewrite outcome_triple. intros H; inversion H; subst e'.
      assert (He : forall e0 r, decide_error i e0 r = Fail e ->
                 exn_class e = Exception \/ exn_class e = UnboundLocalError).
      { intros e0 r. unfold decide_error.
        destruct (isinstance e0 HTTPError).
        - destruct r as [r|].
          + destruct (_ && _); [discriminate|].
            intros H0; inversion H0; auto.
          + intros H0; inversion H0; auto.
        - intros H0; inversion H0; auto. }
      unfold decide_attempt in Hd. destruct (fst _) as [e0|r]; [eauto|].
      destruct (summary_of r); [eauto|discriminate].
Qed.

Lemma get_summary_gemini_error_class transcript w e :
  outcome (get_summary_gemini transcript w) = inl e ->
  isinstance e CouldNotRetrieveTranscript = false.
Proof.
  rewrite get_summary_gemini_run. cbv zeta. rewrite outcome_triple.
  destruct (outcome (summary_loop _ _ _ _ _)) as [e'|[v|]] eqn:Hl;
    try discriminate.
  intros H; inversion H; subst e'.
  apply summary_loop_error_class in Hl. unfold isinstance.
  destruct Hl as [-> | ->]; reflexivity.
Qed.


End SummarizerFacts.

(** ** The endpoint *)

Section EndpointFacts.
Context {svc : Services}.

Lemma except_transcript_errors e :
  isinstance e NoTranscriptFound || isinstance e TranscriptsDisabled
  || isinstance e CouldNotRetrieveTranscript
  = isinstance e CouldNotRetrieveTranscript.
Proof. unfold isinstance. destruct (exn_class e); reflexivity. Qed.

Lemma bind_lift_inr {A B} (a : A) (f : A -> M B) w :
  bind (lift (inr a)) f w = f a w.
Proof. unfold bind, lift. now destruct (f a w) as [[r w'] t]. Qed.

Lemma bind_lift_inl {A B} (e : exn) (f : A -> M B) w :
  bind (lift (inl e)) f w = (inl e, w, []).
Proof. reflexivity. Qed.

(** What [get_video_id] raises leaves [summary_api] before any call. *)
Lemma summary_api_raises url e w :
  truthy url = true -> get_video_id url = inl e ->
  summary_api (Some url) w = (inl e, w, []).
Proof.
  intros Hu Hv. unfold summary_api. rewrite Hu, Hv. cbn [negb].
  apply bind_lift_inl.
Qed.

Lemma summary_api_no_id url w :
  truthy url = true -> get_video_id url = inr None ->
  summary_api (Some url) w
  = (inr (error_body "Invalid YouTube URL format.", 400%Z), w, []).
Proof.
  intros Hu Hv. unfold summary_api. rewrite Hu, Hv. cbn [negb].
  now rewrite bind_lift_inr.
Qed.

Lemma summary_api_run url video_id w :
  truthy url = true -> get_video_id url = inr (Some video_id) ->
  summary_api (Some url) w =
  match get_transcript video_id w with
  | (inl e, w1, t1) =>
      if isinstance e CouldNotRetrieveTranscript
      then (inr (error_body (exn_str e), 404%Z), w1, t1)
      else (inr generic_error, w1,
            (t1 ++ [EvPrint ("Internal Error: " ++ exn_str e)])%list)
  | (inr transcript, w1, t1) =>
      if py_truthy transcript then
        match get_summary_gemini transcript w1 with
        | (inr summary, w2, t2) =>
            (inr (JObj [("summary", summary)], 200%Z), w2, (t1 ++ t2)%list)
        | (inl e, w2, t2) =>
            (inr generic_error, w2,
             (t1 ++ t2 ++ [EvPrint ("Internal Error: " ++ exn_str e)])%list)
        end
      else (inr (error_body "Transcript is empty.", 404%Z), w1, t1)
  end.
Proof.
  intros Hu Hv. unfold summary_api. rewrite Hu, Hv. cbn [negb].
  rewrite bind_lift_inr.
  rewrite (get_video_id_truthy _ _ Hv). cbn [negb].
  unfold try_except, bind at 1, attempt, bind at 1.
  destruct (get_transcript video_id w) as [[[e|transcript] w1] t1].
  - rewrite except_transcript_errors.
    destruct (isinstance e CouldNotRetrieveTranscript) eqn:Hc;
      unfold bind, ret, print, generic_error; cbn [app];
      rewrite ?app_nil_r; reflexivity.
  - destruct (py_truthy transcript); cbn [negb].
    + unfold bind at 1.
      destruct (get_summary_gemini transcript w1) as [[[e|summary] w2] t2]
        eqn:Hs.
      * assert (Hc : isinstance e CouldNotRetrieveTranscript = false).
        { apply (get_summary_gemini_error_class transcript w1).
          now rewrite Hs. }
        rewrite except_transcript_errors, Hc.
        unfold bind, ret, print, generic_error; cbn [app].
        rewrite ?app_nil_r, <- ?app_assoc. reflexivity.
      * unfold ret. cbn [app]. rewrite ?app_nil_r. reflexivity.
    + unfold ret. cbn [app]. rewrite ?app_nil_r. reflexivity.
Qed.

(** C1, as the code has it.  [summary_api] answers 400 "No URL provided."
    to a missing or empty [url]; 400 "Invalid YouTube URL format." when
    [get_video_id] returns no VideoID; and, when it returns one,
    404 "Transcript is empty." when the fetched
    transcript is empty; 404 with [str(e)] when [get_transcript] raises a
    [NoTranscriptFound], a [TranscriptsDisabled] or another
    [CouldNotRetrieveTranscript]; 500 with the fixed body when
    [get_transcript] raises anything else or [get_summary_gemini] raises;
    and 200 with the summary otherwise. *)
Theorem summary_api_status (url_arg : option string) (w : World) :
  (url_arg = None \/ url_arg = Some "" ->
   summary_api url_arg w = (inr (error_body "No URL provided.", 400%Z), w, []))
  /\ (forall url,
      url_arg = Some url -> url <> "" -> get_video_id url = inr None ->
      summary_api url_arg w
      = (inr (error_body "Invalid YouTube URL format.", 400%Z), w, []))
  /\ (forall url video_id,
      url_arg = Some url -> url <> "" ->
      get_video_id url = inr (Some video_id) ->
      (forall transcript,
          outcome (get_transcript video_id w) = inr transcript ->
          py_truthy transcript = false ->
          outcome (summary_api url_arg w)
          = inr (error_body "Transcript is empty.", 404%Z))
      /\ (forall e,
          outcome (get_transcript video_id w) = inl e ->
          isinstance e CouldNotRetrieveTranscript = true ->
          outcome (summary_api url_arg w)
          = inr (error_body (exn_str e), 404%Z))
      /\ (forall e,
          outcome (get_transcript video_id w) = inl e ->
          isinstance e CouldNotRetrieveTranscript = false ->
          outcome (summary_api url_arg w) = inr generic_error)
      /\ (forall transcript,
          outcome (get_transcript video_id w) = inr transcript ->
          py_truthy transcript = true ->
          (forall summary,
              outcome (get_summary_gemini transcript
                         (world_after (get_transcript video_id w)))
              = inr summary ->
              outcome (summary_api url_arg w)
              = inr (JObj [("summary", summary)], 200%Z))
          /\ (forall e,
              outcome (get_summary_gemini transcript
                         (world_after (get_transcript video_id w)))
              = inl e ->
              outcome (summary_api url_arg w) = inr generic_error))).
Proof.
  split; [|split].
  - intros [-> | ->]; reflexivity.
  - intros url -> Hne Hv. apply summary_api_no_id; auto.
    destruct url; [contradiction|reflexivity].
  - intros url video_id -> Hne Hv.
    assert (Hu : truthy url = true) by (destruct url; [contradiction|auto]).
    rewrite (summary_api_run _ _ w Hu Hv).
    destruct (get_transcript video_id w) as [[o w1] t1].
    unfold outcome, world_after. cbn [fst snd].
    split; [|split; [|split]].
    + intros transcript -> Ht. now rewrite Ht.
    + intros e -> Hc. now rewrite Hc.
    + intros e -> Hc. now rewrite Hc.
    + intros transcript -> Ht. rewrite Ht.
      destruct (get_summary_gemini transcript w1) as [[o2 w2] t2].
      cbn [fst]. split.
      * now intros summary ->.
      * now intros e ->.
Qed.

End EndpointFacts.

(** ** The properties on the example worlds *)

Import Scripted.

Lemma get_video_id_order_witness :
  get_video_id (svc := services english)
    "https://www.youtube.com/watch?v=&v=dQw4w9WgXcQ&v=other"
  = inr (Some "dQw4w9WgXcQ")
  /\ get_video_id (svc := services english) "https://youtu.be/ABCDEFGHIJK?t=3"
     = inr (Some "ABCDEFGHIJK")
  /\ get_video_id (svc := services english) "https://example.com/watch?list=1"
     = inr None.
Proof.
  split; [|split].
  - exact (proj1 (get_video_id_order (svc := services english)
                    "https://www.youtube.com/watch?v=&v=dQw4w9WgXcQ&v=other"
                    "v=&v=dQw4w9WgXcQ&v=other" eq_refl)
                 "dQw4w9WgXcQ" ["other"] eq_refl).
  - exact (proj1 (proj1 (proj2 (get_video_id_order (svc := services english)
                                  "https://youtu.be/ABCDEFGHIJK?t=3"
                                  "t=3" eq_refl))
                        eq_refl "ABCDEFGHIJK" eq_refl)).
  - exact (proj1 (proj2 (proj2 (get_video_id_order (svc := services english)
                                  "https://example.com/watch?list=1"
                                  "list=1" eq_refl))
                        eq_refl eq_refl)).
Defined.

(** C9 as the specification has it fails: a [v] parameter written with an
    empty value is passed over, for a later [v] or for the short link. *)
Lemma get_video_id_skips_blank_v :
  urlparse_query (svc := services english)
    "https://www.youtube.com/watch?v=&v=second"
  = inr "v=&v=second"
  /\ values_of "v" (parse_qsl_keep_blank "v=&v=second") = [""; "second"]
  /\ get_video_id (svc := services english)
       "https://www.youtube.com/watch?v=&v=second"
     = inr (Some "second")
  /\ urlparse_query (svc := services english) "https://youtu.be/ABCDEFGHIJK?v="
     = inr "v="
  /\ values_of "v" (parse_qsl_keep_blank "v=") = [""]
  /\ get_video_id (svc := services english) "https://youtu.be/ABCDEFGHIJK?v="
     = inr (Some "ABCDEFGHIJK").
Proof. repeat split. Qed.

(** [urlparse] rejects a network location with an unclosed bracket, and
    so does [get_video_id], whatever the query says. *)
Example get_video_id_rejects_open_bracket :
  get_video_id (svc := services english) "http://[::1/watch?v=abc"
  = inl (value_error "Invalid IPv6 URL")
  /\ get_video_id (svc := services english) "http://[::1]/watch?v=abc"
     = inr (Some "abc")
  /\ get_video_id (svc := services english) "http://[127.0.0.1]/watch?v=abc"
     = inl (value_error "An IPv4 address cannot be in brackets").
Proof. repeat split. Qed.

(** C8 as the specification has it fails: the value of [v] is returned
    whatever its length. *)
Lemma get_video_id_short_v :
  get_video_id (svc := services english) "https://www.youtube.com/watch?v=abc"
  = inr (Some "abc")
  /\ ~ is_video_id "abc".
Proof.
  split; [reflexivity|]. intros [Hl _]. discriminate Hl.
Qed.

Lemma get_video_id_shape_witness :
  (exists query,
      urlparse_query (svc := services english)
        "https://www.youtube.com/watch?v=abc"
      = inr query
      /\ ((exists vs, values_of "v" (parse_qsl query) = "abc" :: vs
                      /\ "abc" <> "")
          \/ (values_of "v" (parse_qsl query) = []
              /\ is_video_id "abc"
              /\ exists pre post,
                  "https://www.youtube.com/watch?v=abc"
                  = pre ++ "youtu.be/" ++ "abc" ++ post)))
  /\ get_video_id (svc := services english) "http://[::1/watch?v=abc"
     = inl (value_error "Invalid IPv6 URL").
Proof.
  split.
  - exact (proj1 (get_video_id_shape (svc := services english)
                    "https://www.youtube.com/watch?v=abc")
                 "abc" eq_refl).
  - exact (proj2 (proj2 (proj2 (get_video_id_shape (svc := services english)
                                  "http://[::1/watch?v=abc"))
                        (value_error "Invalid IPv6 URL"))
                 eq_refl).
Defined.

Lemma english_tracks_first_witness :
  get_transcript (svc := services english) "ABCDEFGHIJK" 0
  = (inr (JStr "Hello world"), 0,
     [EvGetTranscript "ABCDEFGHIJK" ["en"]
        (inr [Segment "Hello"; Segment "world"])])
  /\ get_transcript (svc := services auto_english) "ABCDEFGHIJK" 0
     = (inr (JStr "Hello again"), 0,
        [EvGetTranscript "ABCDEFGHIJK" ["en"] (inl no_transcript);
         EvGetTranscript "ABCDEFGHIJK" ["a.en"]
           (inr [Segment "Hello"; Segment "again"])])
  /\ (forall ev,
        In ev (trace (get_transcript (svc := services disabled_at_once)
                        "ABCDEFGHIJK" 0)) ->
        ~ requests_track ["a.en"] ev).
Proof.
  split; [|split].
  - exact (proj1 (english_tracks_first (svc := services english)
                    "ABCDEFGHIJK" 0) _ _ eq_refl).
  - exact (proj1 (proj2 (english_tracks_first (svc := services auto_english)
                           "ABCDEFGHIJK" 0))
                 _ _ _ _ eq_refl eq_refl eq_refl).
  - refine (proj2 (proj2 (english_tracks_first
                            (svc := services disabled_at_once)
                            "ABCDEFGHIJK" 0))
                  disabled 0 eq_refl _).
    discriminate.
Defined.

Lemma foreign_track_is_translated_witness :
  get_transcript (svc := services french) "ABCDEFGHIJK" 0
  = (inr (JStr "Hello world"), 1,
     [EvGetTranscript "ABCDEFGHIJK" ["en"] (inl no_transcript);
      EvGetTranscript "ABCDEFGHIJK" ["a.en"] (inl no_transcript);
      EvListTranscripts "ABCDEFGHIJK" (inr [english_track; french_track]);
      EvFetch french_track
        (inr [Segment "Bonjour"; Segment "le"; Segment "monde"]);
      EvHttpPost GEMINI_URL json_headers
        (translation_data (svc := services french) "Bonjour le monde" "French")
        (inr (ok_text "Hello world"))]).
Proof.
  refine (proj1 (foreign_track_is_translated (svc := services french)
                   "ABCDEFGHIJK" 0 no_transcript no_transcript 0 0 0
                   [english_track; french_track]
                   eq_refl eq_refl eq_refl eq_refl eq_refl)
                [english_track] french_track []
                [Segment "Bonjour"; Segment "le"; Segment "monde"] 0
                eq_refl _ _ eq_refl).
  - repeat constructor.
  - discriminate.
Defined.

(** C3 as the specification has it fails: a disabled signal that comes
    with the track list reaches the caller, and nothing is scraped. *)
Lemma disabled_during_listing_propagates :
  outcome (get_transcript (svc := services disabled_at_listing)
             "ABCDEFGHIJK" 0)
  = inl disabled
  /\ exn_class disabled = TranscriptsDisabled
  /\ trace (get_transcript (svc := services disabled_at_listing)
              "ABCDEFGHIJK" 0)
     = [EvGetTranscript "ABCDEFGHIJK" ["en"] (inl no_transcript);
        EvGetTranscript "ABCDEFGHIJK" ["a.en"] (inl no_transcript);
        EvListTranscripts "ABCDEFGHIJK" (inl disabled)]
  /\ ~ Exists is_scrape
         (trace (get_transcript (svc := services disabled_at_listing)
                   "ABCDEFGHIJK" 0)).
Proof.
  repeat split. intros H.
  repeat (apply Exists_cons in H; destruct H as [H|H]; [exact H|]).
  inversion H.
Qed.

Lemma disabled_signal_witness :
  get_transcript (svc := services disabled_at_once) "ABCDEFGHIJK" 0
  = (inl (Exc TypeError
            (missing_arguments_str (Services := services disabled_at_once))),
     0,
     [EvGetTranscript "ABCDEFGHIJK" ["en"] (inl disabled);
      EvHttpGet (scrape_url "ABCDEFGHIJK")
        (inr (Response 404 "" "Not Found" "" (inl not_json)))])
  /\ get_transcript (svc := services disabled_at_auto) "ABCDEFGHIJK" 0
     = (inl (Exc Exception
               "Transcript retrieval error: Subtitles are disabled for this video"),
        0,
        [EvGetTranscript "ABCDEFGHIJK" ["en"] (inl no_transcript);
         EvGetTranscript "ABCDEFGHIJK" ["a.en"] (inl disabled)])
  /\ get_transcript (svc := services disabled_at_listing) "ABCDEFGHIJK" 0
     = (inl disabled, 0,
        [EvGetTranscript "ABCDEFGHIJK" ["en"] (inl no_transcript);
         EvGetTranscript "ABCDEFGHIJK" ["a.en"] (inl no_transcript);
         EvListTranscripts "ABCDEFGHIJK" (inl disabled)]).
Proof.
  split; [|split].
  - exact (proj1 (proj1 (disabled_signal (svc := services disabled_at_once)
                           "ABCDEFGHIJK" 0)
                        disabled 0 eq_refl eq_refl)).
  - exact (proj1 (proj2 (disabled_signal (svc := services disabled_at_auto)
                           "ABCDEFGHIJK" 0))
                 no_transcript 0 disabled 0 eq_refl eq_refl eq_refl eq_refl).
  - exact (proj2 (proj2 (disabled_signal (svc := services disabled_at_listing)
                           "ABCDEFGHIJK" 0))
                 no_transcript 0 no_transcript 0 disabled 0
                 eq_refl eq_refl eq_refl eq_refl eq_refl eq_refl).
Defined.

(** C6 as the specification has it fails: a document without caption
    lines is answered with the empty string, not with an error. *)
Lemma empty_document_is_not_an_error :
  fst (requests_get (Services := services (scrape no_lines))
         (scrape_url "ABCDEFGHIJK") 0)
  = inr (Response 200 no_lines "OK" "" (inl not_json))
  /\ ET_fromstring (Services := services (scrape no_lines)) no_lines
     = inr (Element "transcript" None [])
  /\ caption_lines (Element "transcript" None []) = []
  /\ outcome (get_fallback_captions (svc := services (scrape no_lines))
                "ABCDEFGHIJK" 0)
     = inr "".
Proof. repeat split. Qed.

Lemma fallback_scrape_witness :
  outcome (get_fallback_captions (svc := services (scrape two_lines))
             "ABCDEFGHIJK" 0)
  = inr "a b"
  /\ (exists raised,
        outcome (get_fallback_captions (svc := services nothing)
                   "ABCDEFGHIJK" 0)
        = inl raised)
  /\ (exists raised,
        outcome (get_fallback_captions (svc := services (scrape "<oops"))
                   "ABCDEFGHIJK" 0)
        = inl raised).
Proof.
  split; [|split].
  - exact (proj1 (proj2 (fallback_scrape (svc := services (scrape two_lines))
                           "ABCDEFGHIJK" 0))
                 _ _ eq_refl eq_refl eq_refl eq_refl).
  - refine (proj1 (proj2 (proj2 (fallback_scrape (svc := services nothing)
                                   "ABCDEFGHIJK" 0)))
                  _ eq_refl _).
    left. discriminate.
  - exact (proj1 (proj2 (proj2 (proj2
                   (fallback_scrape (svc := services (scrape "<oops"))
                      "ABCDEFGHIJK" 0))))
                 _ _ eq_refl eq_refl eq_refl eq_refl).
Defined.



(** The service down at every attempt: five POSTs, the delays 2, 4, 8 and
    16 between them, and the error of the fifth. *)
Example summarizer_gives_up_after_five :
  post_count (trace (get_summary_gemini (svc := services nothing)
                       (JStr "Hello world") 0)) = 5
  /\ sleeps (trace (get_summary_gemini (svc := services nothing)
                      (JStr "Hello world") 0)) = [2; 4; 8; 16]%Z
  /\ outcome (get_summary_gemini (svc := services nothing)
                (JStr "Hello world") 0)
     = inl (Exc Exception
              ("Gemini API error: 503 Server Error: Service Unavailable for url: "
               ++ GEMINI_URL)).
Proof. repeat split. Qed.

(** The service down twice and then up: three POSTs, the delays 2 and 4. *)
Example summarizer_recovers :
  post_count (trace (get_summary_gemini (svc := services recovers)
                       (JStr "Hello world") 0)) = 3
  /\ sleeps (trace (get_summary_gemini (svc := services recovers)
                      (JStr "Hello world") 0)) = [2; 4]%Z
  /\ outcome (get_summary_gemini (svc := services recovers)
                (JStr "Hello world") 0)
     = inr (JStr "- a greeting").
Proof. repeat split. Qed.


(** C1 as the specification has it fails: a retrieval error met when the
    auto-generated track is requested, or transcripts reported disabled
    then, give 500 and the fixed body, not 404 and the failure. *)
Lemma summary_api_retrieval_error_is_500 :
  yt_get_transcript (Services := services blocked_at_auto)
    "ABCDEFGHIJK" ["a.en"] 0
  = (inl blocked, 0)
  /\ outcome (get_transcript (svc := services blocked_at_auto)
                "ABCDEFGHIJK" 0)
     = inl (Exc Exception
              "Transcript retrieval error: Request to YouTube failed: 429 Client Error")
  /\ outcome (summary_api (svc := services blocked_at_auto)
                (Some "https://youtu.be/ABCDEFGHIJK") 0)
     = inr (error_body
              "Internal error occurred. Ensure video has English captions.",
            500%Z)
  /\ outcome (get_transcript (svc := services disabled_at_auto)
                "ABCDEFGHIJK" 0)
     = inl (Exc Exception
              "Transcript retrieval error: Subtitles are disabled for this video")
  /\ outcome (summary_api (svc := services disabled_at_auto)
                (Some "https://youtu.be/ABCDEFGHIJK") 0)
     = inr (error_body
              "Internal error occurred. Ensure video has English captions.",
            500%Z).
Proof. repeat split. Qed.

Lemma summary_api_status_witness :
  summary_api (svc := services english) None 0
  = (inr (error_body "No URL provided.", 400%Z), 0, [])
  /\ summary_api (svc := services english) (Some "https://example.com/") 0
     = (inr (error_body "Invalid YouTube URL format.", 400%Z), 0, [])
  /\ outcome (summary_api (svc := services english)
                (Some "https://youtu.be/ABCDEFGHIJK") 0)
     = inr (JObj [("summary", JStr "- a greeting")], 200%Z)
  /\ outcome (summary_api (svc := services (scrape no_lines))
                (Some "https://youtu.be/ABCDEFGHIJK") 0)
     = inr (error_body "Transcript is empty.", 404%Z)
  /\ outcome (summary_api (svc := services disabled_at_listing)
                (Some "https://youtu.be/ABCDEFGHIJK") 0)
     = inr (error_body "Subtitles are disabled for this video", 404%Z)
  /\ outcome (summary_api (svc := services blocked_at_auto)
                (Some "https://www.youtube.com/watch?v=ABCDEFGHIJK") 0)
     = inr generic_error.
Proof.
  split; [|split; [|split; [|split; [|split]]]].
  - refine (proj1 (summary_api_status (svc := services english) None 0) _).
    now left.
  - refine (proj1 (proj2 (summary_api_status (svc := services english)
                            (Some "https://example.com/") 0))
                  "https://example.com/" eq_refl _ eq_refl).
    discriminate.
  - refine (proj1 (proj2 (proj2 (proj2
              (proj2 (proj2 (summary_api_status (svc := services english)
                               (Some "https://youtu.be/ABCDEFGHIJK") 0))
                 "https://youtu.be/ABCDEFGHIJK" "ABCDEFGHIJK"
                 eq_refl _ eq_refl)))
              (JStr "Hello world") eq_refl eq_refl)
              (JStr "- a greeting") eq_refl).
    discriminate.
  - refine (proj1
              (proj2 (proj2 (summary_api_status
                               (svc := services (scrape no_lines))
                               (Some "https://youtu.be/ABCDEFGHIJK") 0))
                 "https://youtu.be/ABCDEFGHIJK" "ABCDEFGHIJK"
                 eq_refl _ eq_refl)
              (JStr "") eq_refl eq_refl).
    discriminate.
  - refine (proj1 (proj2
              (proj2 (proj2 (summary_api_status
                               (svc := services disabled_at_listing)
                               (Some "https://youtu.be/ABCDEFGHIJK") 0))
                 "https://youtu.be/ABCDEFGHIJK" "ABCDEFGHIJK"
                 eq_refl _ eq_refl))
              disabled eq_refl eq_refl).
    discriminate.
  - refine (proj1 (proj2 (proj2
              (proj2 (proj2 (summary_api_status
                               (svc := services blocked_at_auto)
                               (Some "https://www.youtube.com/watch?v=ABCDEFGHIJK") 0))
                 "https://www.youtube.com/watch?v=ABCDEFGHIJK" "ABCDEFGHIJK"
                 eq_refl _ eq_refl)))
              _ eq_refl eq_refl).
    discriminate.
Defined.

(* ================================================================== *)
(** * Further properties of the code *)
(* ================================================================== *)

Import Calls MoreWorlds.

(** ** The extractor *)

Lemma mem_app c a b : mem c (a ++ b) = mem c a || mem c b.
Proof.
  induction a as [|d a IH]; simpl; [reflexivity|].
  rewrite IH. now rewrite orb_assoc.
Qed.

Lemma remove_char_app c a b :
  remove_char c (a ++ b) = remove_char c a ++ remove_char c b.
Proof.
  induction a as [|d a IH]; simpl; [reflexivity|].
  destruct (Ascii.eqb c d); simpl; now rewrite IH.
Qed.

Lemma remove_char_mem c d s : mem d s = false -> mem d (remove_char c s) = false.
Proof.
  induction s as [|x s IH]; simpl; [reflexivity|].
  intros H. apply orb_false_iff in H. destruct H as [Hx Hs].
  destruct (Ascii.eqb c x); simpl; [auto|]. rewrite Hx. auto.
Qed.

Lemma remove_char_absent c s : mem c s = false -> remove_char c s = s.
Proof.
  induction s as [|x s IH]; simpl; [reflexivity|].
  intros H. apply orb_false_iff in H. destruct H as [Hx Hs].
  rewrite Hx. now rewrite IH.
Qed.

Lemma remove_unsafe_app a b :
  remove_unsafe (a ++ b) = remove_unsafe a ++ remove_unsafe b.
Proof. unfold remove_unsafe. now rewrite !remove_char_app. Qed.

Lemma remove_unsafe_mem d s : mem d s = false -> mem d (remove_unsafe s) = false.
Proof. intros H. unfold remove_unsafe. now repeat apply remove_char_mem. Qed.

Lemma before_first_app c a b :
  mem c a = false -> before_first c (a ++ b) = a ++ before_first c b.
Proof.
  induction a as [|d a IH]; simpl; [reflexivity|].
  intros H. apply orb_false_iff in H. destruct H as [Hd Ha].
  rewrite Hd. now rewrite IH.
Qed.

Lemma before_first_absent c s : mem c s = false -> before_first c s = s.
Proof.
  induction s as [|d s IH]; simpl; [reflexivity|].
  intros H. apply orb_false_iff in H. destruct H as [Hd Hs].
  rewrite Hd. now rewrite IH.
Qed.

Lemma after_first_app c a b :
  mem c a = false -> after_first c (a ++ String c b) = Some b.
Proof.
  induction a as [|d a IH]; simpl.
  - now rewrite Ascii.eqb_refl.
  - intros H. apply orb_false_iff in H. destruct H as [Hd Ha].
    rewrite Hd. now apply IH.
Qed.

Lemma after_first_absent c s : mem c s = false -> after_first c s = None.
Proof.
  induction s as [|d s IH]; simpl; [reflexivity|].
  intros H. apply orb_false_iff in H. destruct H as [Hd Hs].
  rewrite Hd. now apply IH.
Qed.

(** Stripping the leading controls of [base ++ "?" ++ q] stops at the
    question mark at the latest. *)
Lemma lstrip_before_query base q :
  exists base',
    lstrip c0_control_or_space (base ++ String "?" q) = base' ++ String "?" q
    /\ forall c, mem c base = false -> mem c base' = false.
Proof.
  induction base as [|d base (base' & IH & Hm)]; simpl.
  - exists "". split; [reflexivity|auto].
  - destruct (c0_control_or_space d).
    + exists base'. split; [exact IH|]. intros c H.
      apply orb_false_iff in H. destruct H as [_ H]. auto.
    + exists (String d base). split; [reflexivity|auto].
Qed.

Lemma after_first_skip c a b :
  mem c a = false -> after_first c (a ++ b) = after_first c b.
Proof.
  induction a as [|d a IH]; simpl; [reflexivity|].
  intros H. apply orb_false_iff in H. destruct H as [Hd Ha].
  rewrite Hd. now apply IH.
Qed.

(** The query of what is left is that of the whole: the part taken off
    has neither ['?'] nor ['#']. *)
Lemma query_of_tail b rq :
  mem "?" b = false -> mem "#" b = false ->
  query_of (b ++ String "?" rq) = before_first "#" rq.
Proof.
  intros Hq Hh. unfold query_of. rewrite before_first_app by exact Hh.
  change (before_first "#" (String "?" rq))
    with (String "?" (before_first "#" rq)).
  now rewrite (after_first_app "?" _ _ Hq).
Qed.

(** A scheme is taken off before the first ['?']. *)
Lemma drop_scheme_tail rq : forall b rest,
  mem "?" b = false -> mem "#" b = false ->
  after_first ":" (b ++ String "?" rq) = Some rest ->
  all_chars is_scheme_char (before_first ":" (b ++ String "?" rq)) = true ->
  exists b', rest = b' ++ String "?" rq
             /\ mem "?" b' = false /\ mem "#" b' = false.
Proof.
  induction b as [|d b IH]; intros rest Hq Hh Ha Hs.
  - discriminate Hs.
  - cbn [mem] in Hq, Hh.
    apply orb_false_iff in Hq. destruct Hq as [Hqd Hq].
    apply orb_false_iff in Hh. destruct Hh as [Hhd Hh].
    cbn [append after_first before_first] in Ha, Hs.
    destruct (Ascii.eqb ":" d).
    + injection Ha as <-. now exists b.
    + cbn [all_chars] in Hs. apply andb_prop in Hs. destruct Hs as [_ Hs].
      now apply IH.
Qed.

Lemma drop_scheme_keeps_query b rq :
  mem "?" b = false -> mem "#" b = false ->
  exists b', drop_scheme (b ++ String "?" rq) = b' ++ String "?" rq
             /\ mem "?" b' = false /\ mem "#" b' = false.
Proof.
  intros Hq Hh. unfold drop_scheme.
  destruct (b ++ String "?" rq) as [|c x] eqn:Hx; [destruct b; discriminate|].
  rewrite <- Hx.
  destruct (is_ascii_alpha c); [|now exists b].
  destruct (after_first ":" _) as [rest|] eqn:Ha; [|now exists b].
  destruct (all_chars _ _) eqn:Hs; [|now exists b].
  eapply drop_scheme_tail; eauto.
Qed.

(** The network location ends before the first ['?']. *)
Lemma span_netloc_tail rq : forall b netloc url,
  mem "?" b = false -> mem "#" b = false ->
  span_until (fun c => Ascii.eqb c "/" || Ascii.eqb c "?" || Ascii.eqb c "#")
    (b ++ String "?" rq) = (netloc, url) ->
  exists b', url = b' ++ String "?" rq
             /\ mem "?" b' = false /\ mem "#" b' = false.
Proof.
  induction b as [|d b IH]; intros netloc url Hq Hh Hs.
  - injection Hs as _ <-. now exists "".
  - cbn [mem] in Hq, Hh.
    pose proof Hq as Hq'. pose proof Hh as Hh'.
    apply orb_false_iff in Hq. destruct Hq as [Hqd Hq].
    apply orb_false_iff in Hh. destruct Hh as [Hhd Hh].
    cbn [append span_until] in Hs.
    destruct (Ascii.eqb d "/" || Ascii.eqb d "?" || Ascii.eqb d "#").
    + injection Hs as _ <-. exists (String d b). cbn [mem append].
      now rewrite Hq', Hh'.
    + destruct (span_until _ (b ++ String "?" rq)) as [a u] eqn:Hr.
      injection Hs as _ <-. eapply IH; eauto.
Qed.

Section ParserFacts.
Context {svc : Services}.

Lemma split_netloc_keeps_query b rq netloc url :
  mem "?" b = false -> mem "#" b = false ->
  split_netloc (b ++ String "?" rq) = inr (netloc, url) ->
  exists b', url = b' ++ String "?" rq
             /\ mem "?" b' = false /\ mem "#" b' = false.
Proof.
  intros Hq Hh. unfold split_netloc.
  destruct (strip_prefix "//" (b ++ String "?" rq)) as [rest|] eqn:Hp.
  - assert (Hb : exists b0, rest = b0 ++ String "?" rq
                            /\ mem "?" b0 = false /\ mem "#" b0 = false).
    { destruct b as [|c1 [|c2 b0]].
      - discriminate Hp.
      - cbn [append strip_prefix] in Hp.
        destruct (Ascii.eqb "/" c1); discriminate Hp.
      - cbn [append strip_prefix] in Hp.
        destruct (Ascii.eqb "/" c1); [|discriminate Hp].
        destruct (Ascii.eqb "/" c2); [|discriminate Hp].
        injection Hp as <-. exists b0. cbn [mem] in Hq, Hh.
        apply orb_false_iff in Hq. destruct Hq as [_ Hq].
        apply orb_false_iff in Hq. destruct Hq as [_ Hq].
        apply orb_false_iff in Hh. destruct Hh as [_ Hh].
        apply orb_false_iff in Hh. destruct Hh as [_ Hh].
        auto. }
    destruct Hb as (b0 & -> & Hq0 & Hh0).
    destruct (span_until _ _) as [n u] eqn:Hs.
    destruct (_ || _); [discriminate|].
    match goal with
    | |- context [rbind ?checked _] => destruct checked as [e|[]]
    end; cbn [rbind]; [discriminate|].
    intros H. injection H as _ <-.
    eapply span_netloc_tail; eauto.
  - intros H. injection H as _ <-. now exists b.
Qed.

(** The query [urlparse] finds in [base?q], when it accepts the URL. *)
Lemma urlparse_query_of base q query :
  mem "?" base = false -> mem "#" base = false ->
  urlparse_query (base ++ String "?" q) = inr query ->
  query = before_first "#" (remove_unsafe q).
Proof.
  intros Hq Hh. unfold urlparse_query.
  destruct (lstrip_before_query base q) as (base' & -> & Hm).
  rewrite remove_unsafe_app.
  assert (Hr : remove_unsafe (String "?" q) = String "?" (remove_unsafe q))
    by reflexivity.
  rewrite Hr.
  destruct (drop_scheme_keeps_query (remove_unsafe base') (remove_unsafe q))
    as (b1 & -> & Hq1 & Hh1); [now apply remove_unsafe_mem, Hm ..|].
  destruct (split_netloc _) as [e|[netloc url]] eqn:Hs; cbn [rbind];
    [discriminate|].
  destruct (split_netloc_keeps_query _ _ _ _ Hq1 Hh1 Hs)
    as (b2 & -> & Hq2 & Hh2).
  cbn [fst snd]. destruct (checknetloc netloc) as [e|[]]; cbn [rbind];
    [discriminate|].
  intros H. injection H as <-. now apply query_of_tail.
Qed.

End ParserFacts.

Lemma before_first_mem c d s :
  mem d s = false -> mem d (before_first c s) = false.
Proof.
  induction s as [|x s IH]; simpl; [reflexivity|].
  intros H. apply orb_false_iff in H. destruct H as [Hx Hs].
  destruct (Ascii.eqb c x); simpl; [reflexivity|]. rewrite Hx. auto.
Qed.

Lemma split_absent c s : mem c s = false -> split c s = [s].
Proof.
  induction s as [|d s IH]; simpl; [reflexivity|].
  intros H. apply orb_false_iff in H. destruct H as [Hd Hs].
  rewrite Hd. now rewrite IH.
Qed.

Lemma replace_char_absent a b s : mem a s = false -> replace_char a b s = s.
Proof.
  induction s as [|d s IH]; simpl; [reflexivity|].
  intros H. apply orb_false_iff in H. destruct H as [Hd Hs].
  rewrite Hd. now rewrite IH.
Qed.

Lemma re_search_skips pre : forall rest,
  mem "y" pre = false -> re_search (pre ++ rest) = re_search rest.
Proof.
  induction pre as [|c pre IH]; intros rest H; [reflexivity|].
  cbn [mem] in H. apply orb_false_iff in H. destruct H as [Hc Hp].
  rewrite re_search_eq. cbn [append]. unfold match_here.
  cbn [strip_prefix]. rewrite Hc. now apply IH.
Qed.

Section ExtractorMore.
Context {svc : Services}.

(** X1.  For a URL [urlparse] accepts whose part before the first ['?']
    has no ['#'] and whose query is [v=raw] alone, [raw] being non-empty
    and free of ['&'], ['#'], tab, CR and LF, [get_video_id] returns [raw]
    percent-decoded with ['+'] read as a space, whatever its length and
    characters (an ['='] inside it included); it returns [raw] itself
    when [raw] has neither ['+'] nor ['%']. *)
Theorem get_video_id_watch_url (base raw query : string) :
  mem "?" base = false -> mem "#" base = false ->
  raw <> "" ->
  mem "&" raw = false -> mem "#" raw = false ->
  mem (ascii_of_nat 9) raw = false -> mem (ascii_of_nat 10) raw = false ->
  mem (ascii_of_nat 13) raw = false ->
  urlparse_query (base ++ "?v=" ++ raw) = inr query ->
  get_video_id (base ++ "?v=" ++ raw)
  = inr (Some (unquote (replace_char "+" " " raw)))
  /\ (mem "+" raw = false -> mem "%" raw = false ->
      get_video_id (base ++ "?v=" ++ raw) = inr (Some raw)).
Proof.
  intros Hq Hh Hne Hamp Hfrag Ht Hn Hr Hacc.
  assert (Hid : get_video_id (base ++ "?v=" ++ raw)
                = inr (Some (unquote (replace_char "+" " " raw)))).
  { pose proof (get_video_id_cases (base ++ "?v=" ++ raw)) as Hc.
    rewrite Hacc in Hc.
    change (base ++ "?v=" ++ raw) with (base ++ String "?" ("v=" ++ raw))
      in Hacc.
    rewrite (urlparse_query_of base ("v=" ++ raw) query Hq Hh Hacc) in Hc.
    assert (Hu : remove_unsafe ("v=" ++ raw) = "v=" ++ raw).
    { unfold remove_unsafe. simpl.
      now rewrite (remove_char_absent _ _ Ht), (remove_char_absent _ _ Hr),
        (remove_char_absent _ _ Hn). }
    rewrite Hu in Hc.
    rewrite before_first_absent in Hc by (simpl; exact Hfrag).
    unfold parse_qsl in Hc. cbn [truthy append] in Hc.
    rewrite split_absent in Hc by (simpl; exact Hamp).
    cbn [collect_fields] in Hc. unfold parse_field in Hc.
    cbn [truthy negb append after_first before_first] in Hc.
    change (Ascii.eqb "=" "v") with false in Hc.
    change (Ascii.eqb "=" "=") with true in Hc. cbv iota in Hc.
    destruct raw as [|c raw]; [contradiction|].
    cbn [truthy] in Hc. unfold values_of in Hc.
    cbn [filter fst snd map] in Hc.
    change (unquote (replace_char "+" " " "v")) with "v" in Hc.
    change (String.eqb "v" "v") with true in Hc. cbv iota in Hc.
    cbn [map snd] in Hc. destruct Hc as [Hc _]. exact Hc. }
  split; [exact Hid|].
  intros Hplus Hpct. rewrite Hid. rewrite (replace_char_absent _ _ _ Hplus).
  unfold unquote. now rewrite Hpct.
Qed.

(** X2.  The short-link pattern is neither anchored to a host nor to the
    end of the identifier: when [urlparse] accepts the URL, the URL has
    no usable [v] parameter and no ['y'] before its first [youtu.be/],
    [get_video_id] returns the eleven identifier characters right after
    it and drops whatever follows, more identifier characters included. *)
Theorem get_video_id_short_link (pre id more query : string) :
  mem "y" pre = false ->
  is_video_id id ->
  urlparse_query (pre ++ "youtu.be/" ++ id ++ more) = inr query ->
  values_of "v" (parse_qsl query) = [] ->
  get_video_id (pre ++ "youtu.be/" ++ id ++ more) = inr (Some id).
Proof.
  intros Hy Hid Hacc Hv.
  pose proof (get_video_id_cases (pre ++ "youtu.be/" ++ id ++ more)) as Hc.
  rewrite Hacc, Hv in Hc. rewrite Hc, re_search_skips by exact Hy.
  rewrite re_search_eq.
  assert (Hm : match_here ("youtu.be/" ++ id ++ more) = Some id).
  { apply match_here_iff. split; [exact Hid|]. now exists more. }
  now rewrite Hm.
Qed.

(** X15.  A [v] without a value ([?v=], [?v]) and an empty query are
    ignored: on a URL [urlparse] accepts, [get_video_id] then depends on
    the short-link pattern alone. *)
Theorem get_video_id_blank_v (base : string) :
  mem "?" base = false -> mem "#" base = false ->
  (forall query,
      urlparse_query (base ++ "?v=") = inr query ->
      get_video_id (base ++ "?v=") = inr (re_search (base ++ "?v=")))
  /\ (forall query,
      urlparse_query (base ++ "?v") = inr query ->
      get_video_id (base ++ "?v") = inr (re_search (base ++ "?v")))
  /\ (forall query,
      urlparse_query (base ++ "?") = inr query ->
      get_video_id (base ++ "?") = inr (re_search (base ++ "?"))).
Proof.
  intros Hq Hh. split; [|split]; intros query Hacc.
  - pose proof (get_video_id_cases (base ++ "?v=")) as Hc.
    rewrite Hacc in Hc.
    change (base ++ "?v=") with (base ++ String "?" "v=") in Hacc.
    now rewrite (urlparse_query_of base "v=" query Hq Hh Hacc) in Hc.
  - pose proof (get_video_id_cases (base ++ "?v")) as Hc.
    rewrite Hacc in Hc.
    change (base ++ "?v") with (base ++ String "?" "v") in Hacc.
    now rewrite (urlparse_query_of base "v" query Hq Hh Hacc) in Hc.
  - pose proof (get_video_id_cases (base ++ "?")) as Hc.
    rewrite Hacc in Hc.
    change (base ++ "?") with (base ++ String "?" "") in Hacc.
    now rewrite (urlparse_query_of base "" query Hq Hh Hacc) in Hc.
Qed.

End ExtractorMore.

(** ** The scrape *)

Section ScrapeMore.
Context {svc : Services}.

Lemma caption_lines_in root t :
  In t (caption_lines root) <->
  exists node, In node (findall root "text")
               /\ text_of node = Some t /\ t <> "".
Proof.
  unfold caption_lines. rewrite in_flat_map. split.
  - intros (node & Hin & Ht). exists node. split; [exact Hin|].
    destruct (text_of node) as [t'|]; [|contradiction].
    destruct t' as [|c t']; [contradiction|].
    destruct Ht as [<-|[]]. split; [reflexivity|discriminate].
  - intros (node & Hin & Ht & Hne). exists node. split; [exact Hin|].
    rewrite Ht. destruct t; [contradiction|]. now left.
Qed.

Lemma join_truthy sep x rest :
  truthy x = true -> truthy (join sep (x :: rest)) = true.
Proof.
  intros Hx. destruct rest; cbn [join]; [exact Hx|].
  destruct x; [discriminate|reflexivity].
Qed.

Lemma join_lines_empty root :
  join " " (caption_lines root) = "" <-> caption_lines root = [].
Proof.
  split; [|intros ->; reflexivity].
  destruct (caption_lines root) as [|x rest] eqn:Hl; [reflexivity|].
  intros Hj. assert (Hx : truthy x = true).
  { assert (Hin : In x (caption_lines root)) by (rewrite Hl; now left).
    apply caption_lines_in in Hin. destruct Hin as (_ & _ & _ & Hne).
    destruct x; [contradiction|reflexivity]. }
  pose proof (join_truthy " " x rest Hx) as Ht. rewrite Hj in Ht.
  discriminate.
Qed.

(** X4.  On a 200 answer whose body parses, [get_fallback_captions]
    returns the empty string exactly when no [text] child of the root has
    a non-empty text; a non-empty result comes from at least one such
    child. *)
Theorem fallback_captions_empty_iff (video_id : string) (w : World)
    (resp : response) (root : element) :
  fst (requests_get (scrape_url video_id) w) = inr resp ->
  status_code resp = 200%Z ->
  is_blank (text resp) = false ->
  ET_fromstring (text resp) = inr root ->
  (outcome (get_fallback_captions video_id w) = inr ""
   <-> forall node, In node (findall root "text") ->
                    text_of node = None \/ text_of node = Some "")
  /\ (forall captions,
        outcome (get_fallback_captions video_id w) = inr captions ->
        captions <> "" ->
        exists node line,
          In node (findall root "text") /\ text_of node = Some line
          /\ line <> "").
Proof.
  intros Ha Hs Hb Hp. rewrite get_fallback_captions_run.
  rewrite outcome_triple, Ha. unfold scrape_result. rewrite Hs, Hb, Hp.
  change ((200 =? 200)%Z && negb false) with true. cbv iota. split.
  - split.
    + intros H. injection H as Hj. apply join_lines_empty in Hj.
      intros node Hin. destruct (text_of node) as [t|] eqn:Ht; [|now left].
      destruct t as [|c t]; [now right|]. exfalso.
      assert (Hl : In (String c t) (caption_lines root)).
      { apply caption_lines_in. exists node. repeat split; auto.
        discriminate. }
      rewrite Hj in Hl. contradiction.
    + intros Hall. f_equal. apply join_lines_empty.
      destruct (caption_lines root) as [|x rest] eqn:Hl; [reflexivity|].
      assert (Hin : In x (caption_lines root)) by (rewrite Hl; now left).
      apply caption_lines_in in Hin.
      destruct Hin as (node & Hin & Ht & Hne).
      destruct (Hall node Hin) as [H|H]; rewrite H in Ht; inversion Ht.
      now subst.
  - intros captions H Hne. injection H as Hj. subst captions.
    destruct (caption_lines root) as [|x rest] eqn:Hl; [now elim Hne|].
    assert (Hin : In x (caption_lines root)) by (rewrite Hl; now left).
    apply caption_lines_in in Hin. destruct Hin as (node & Hin & Ht & Hx).
    now exists node, x.
Qed.

(** X3.  Whatever goes wrong in [get_fallback_captions] (a status other
    than 200, a blank body, a body that does not parse, a failed GET of
    any class), the caller gets one and the same exception: the
    [TypeError] of [NoTranscriptFound] called with one argument.  No
    [NoTranscriptFound] is raised, and the messages written for it, the
    failure's own text included, are lost. *)
Theorem fallback_failures_are_type_errors (video_id : string) (w : World)
    (e : exn) :
  outcome (get_fallback_captions video_id w) = inl e ->
  e = Exc TypeError missing_arguments_str
  /\ isinstance e NoTranscriptFound = false
  /\ isinstance e CouldNotRetrieveTranscript = false.
Proof.
  rewrite get_fallback_captions_run, outcome_triple.
  intros H. apply scrape_result_failure in H. subst e.
  repeat split.
Qed.

End ScrapeMore.

(** ** The fetcher *)

Section FetcherMore.
Context {svc : Services}.

Lemma translate_first_foreign_run video_id ts : forall w,
  translate_first_foreign video_id ts w =
  match find is_foreign ts with
  | Some t =>
      match yt_fetch t w with
      | (inl e, w1) => (inl e, w1, [EvFetch t (inl e)])
      | (inr segs, w1) =>
          (outcome (translate_text (join_texts segs) (language t) w1),
           world_after (translate_text (join_texts segs) (language t) w1),
           EvFetch t (inr segs)
             :: trace (translate_text (join_texts segs) (language t) w1))
      end
  | None =>
      (match outcome (get_fallback_captions video_id w) with
       | inr captions => inr (JStr captions)
       | inl e => inl e
       end,
       world_after (get_fallback_captions video_id w),
       trace (get_fallback_captions video_id w))
  end.
Proof.
  induction ts as [|t ts IH]; intros w.
  - cbn [find translate_first_foreign]. unfold bind, ret.
    destruct (get_fallback_captions video_id w) as [[[e|c] w1] t1];
      cbn; rewrite ?app_nil_r; reflexivity.
  - cbn [find translate_first_foreign]. unfold is_foreign at 1.
    destruct (negb (String.eqb (language_code t) "en")); [|apply IH].
    unfold bind, call.
    destruct (yt_fetch t w) as [[e|segs] w1]; [reflexivity|].
    destruct (translate_text (join_texts segs) (language t) w1)
      as [[r w2] t2].
    reflexivity.
Qed.

(** X9.  When fetching the first track that is not plain English fails,
    [get_transcript] raises that failure as it is: no later track is
    tried, nothing is translated and nothing is scraped. *)
Theorem track_fetch_failure_propagates (video_id : string) (w : World)
    (e1 e2 e : exn) (w1 w2 w3 w4 : World) (ts : list transcript)
    (t : transcript) :
  yt_get_transcript video_id ["en"] w = (inl e1, w1) ->
  exn_class e1 = NoTranscriptFound ->
  yt_get_transcript video_id ["a.en"] w1 = (inl e2, w2) ->
  exn_class e2 = NoTranscriptFound ->
  yt_list_transcripts video_id w2 = (inr ts, w3) ->
  find is_foreign ts = Some t ->
  yt_fetch t w3 = (inl e, w4) ->
  get_transcript video_id w =
  (inl e, w4,
   [EvGetTranscript video_id ["en"] (inl e1);
    EvGetTranscript video_id ["a.en"] (inl e2);
    EvListTranscripts video_id (inr ts);
    EvFetch t (inl e)]).
Proof.
  intros H1 Hc1 H2 Hc2 H3 Hf H4.
  apply isinstance_no_transcript in Hc1. apply isinstance_no_transcript in Hc2.
  rewrite (get_transcript_no_english _ _ _ _ H1 Hc1), H2, Hc2, H3.
  rewrite translate_first_foreign_run, Hf, H4. reflexivity.
Qed.

(** X10.  A failure of the first request that is neither
    [NoTranscriptFound] nor [TranscriptsDisabled] ends [get_transcript]
    after that single call.  Another [CouldNotRetrieveTranscript] is
    replaced by a new [CouldNotRetrieveTranscript] built from one
    argument, the text that names the video and the reason: the library
    takes that text for the video id, and [str] of the new exception is
    the library's message around it.  Any other exception goes through
    unchanged. *)
Theorem first_request_failures (video_id : string) (w : World) (e : exn)
    (w1 : World) :
  yt_get_transcript video_id ["en"] w = (inl e, w1) ->
  exn_class e <> NoTranscriptFound ->
  exn_class e <> TranscriptsDisabled ->
  get_transcript video_id w =
  (inl (if isinstance e CouldNotRetrieveTranscript
        then Exc CouldNotRetrieveTranscript
               (could_not_retrieve_str
                  ("Transcript Error: Could not retrieve transcript for video (ID: "
                   ++ video_id ++ "). Reason: " ++ exn_str e))
        else e),
   w1, [EvGetTranscript video_id ["en"] (inl e)]).
Proof.
  intros H1 Hn Hd.
  assert (Hi : isinstance e NoTranscriptFound = false).
  { destruct (isinstance e NoTranscriptFound) eqn:Hi; auto.
    now apply isinstance_no_transcript in Hi. }
  rewrite (get_transcript_other_failure _ _ _ _ H1 Hi).
  assert (Hi2 : isinstance e TranscriptsDisabled = false).
  { unfold isinstance. destruct (exn_class e) eqn:Hc; try reflexivity.
    now elim Hd. }
  rewrite Hi2. destruct (isinstance e CouldNotRetrieveTranscript); reflexivity.
Qed.

Lemma get_transcript_shape (video_id : string) (w : World) :
  fetch_calls video_id (trace (get_transcript video_id w)).
Proof.
  destruct (yt_get_transcript video_id ["en"] w) as [[e|segs] w1] eqn:H1.
  - destruct (isinstance e NoTranscriptFound) eqn:Hi.
    + rewrite (get_transcript_no_english _ _ _ _ H1 Hi).
      destruct (yt_get_transcript video_id ["a.en"] w1) as [[e2|segs] w2].
      * destruct (isinstance e2 NoTranscriptFound); [|constructor].
        destruct (yt_list_transcripts video_id w2) as [[e3|ts] w3];
          [constructor|].
        rewrite translate_first_foreign_run.
        destruct (find is_foreign ts) as [t|].
        -- destruct (yt_fetch t w3) as [[e4|segs] w4]; [constructor|].
           rewrite translate_text_run. cbv zeta. rewrite !trace_triple.
           constructor.
        -- rewrite get_fallback_captions_run, !trace_triple. constructor.
      * constructor.
    + rewrite (get_transcript_other_failure _ _ _ _ H1 Hi).
      destruct (isinstance e TranscriptsDisabled).
      * rewrite get_fallback_captions_run.
        destruct (scrape_result _ _); constructor.
      * destruct (isinstance e CouldNotRetrieveTranscript); constructor.
  - unfold get_transcript. run_steps. rewrite H1. constructor.
Qed.


(** X11.  The calls of [get_transcript] always form one of seven
    sequences; there are at most five of them, and among them at most one
    is an HTTP request (never both the scrape and a translation). *)
Theorem get_transcript_calls (video_id : string) (w : World) :
  fetch_calls video_id (trace (get_transcript video_id w))
  /\ length (trace (get_transcript video_id w)) <= 5
  /\ length (filter is_post (trace (get_transcript video_id w)))
     + length (filter is_get (trace (get_transcript video_id w))) <= 1.
Proof.
  pose proof (get_transcript_shape video_id w) as Hshape.
  split; [exact Hshape|].
  destruct Hshape; cbn; split; lia.
Qed.

(** X12.  Once a foreign track has been fetched [get_transcript] cannot
    fail any more: when the translation request itself fails, the
    transcript it returns is the text "Translation failed: ...", which is
    not empty and so goes on to be summarized. *)
Theorem failed_translation_becomes_the_transcript (video_id : string)
    (w : World) (e1 e2 : exn) (w1 w2 w3 w4 : World) (ts : list transcript)
    (t : transcript) (segs : list segment) :
  yt_get_transcript video_id ["en"] w = (inl e1, w1) ->
  exn_class e1 = NoTranscriptFound ->
  yt_get_transcript video_id ["a.en"] w1 = (inl e2, w2) ->
  exn_class e2 = NoTranscriptFound ->
  yt_list_transcripts video_id w2 = (inr ts, w3) ->
  find is_foreign ts = Some t ->
  yt_fetch t w3 = (inr segs, w4) ->
  (exists v, outcome (get_transcript video_id w) = inr v)
  /\ (forall e,
        fst (requests_post GEMINI_URL json_headers
               (translation_data (join " " (map seg_text segs)) (language t))
               w4) = inl e ->
        outcome (get_transcript video_id w)
        = inr (JStr ("Translation failed: " ++ exn_str e))
        /\ py_truthy (JStr ("Translation failed: " ++ exn_str e)) = true).
Proof.
  intros H1 Hc1 H2 Hc2 H3 Hf H4.
  apply isinstance_no_transcript in Hc1. apply isinstance_no_transcript in Hc2.
  rewrite (get_transcript_no_english _ _ _ _ H1 Hc1), H2, Hc2, H3.
  rewrite translate_first_foreign_run, Hf, H4.
  rewrite translate_text_run. cbv zeta. rewrite !outcome_triple.
  split; [eauto|]. intros e He. unfold join_texts. rewrite He.
  split; reflexivity.
Qed.

End FetcherMore.

(** ** The summarizer and the translator *)

Section SummarizerMore.
Context {svc : Services}.

Lemma raise_for_status_ok (r : response) :
  ~ (400 <= status_code r < 600)%Z -> raise_for_status r = inr tt.
Proof.
  intros Hn. unfold raise_for_status.
  destruct ((400 <=? status_code r)%Z && (status_code r <? 500)%Z) eqn:H4.
  { apply andb_prop in H4. destruct H4 as [Ha Hb].
    apply Z.leb_le in Ha. apply Z.ltb_lt in Hb. exfalso. apply Hn. lia. }
  destruct ((500 <=? status_code r)%Z && (status_code r <? 600)%Z) eqn:H5;
    [|reflexivity].
  apply andb_prop in H5. destruct H5 as [Ha Hb].
  apply Z.leb_le in Ha. apply Z.ltb_lt in Hb. exfalso. apply Hn. lia.
Qed.

Lemma summary_loop_budget payload n : forall i delay response w,
  i + n = retries -> 1 <= n ->
  exists k,
    i + k < retries
    /\ post_count (trace (summary_loop payload (seq i n) delay response w))
       = k + 1
    /\ sleeps (trace (summary_loop payload (seq i n) delay response w))
       = backoff delay k
    /\ Forall (post_or_sleep (json_dumps payload))
              (trace (summary_loop payload (seq i n) delay response w)).
Proof.
  induction n as [|n IH]; intros i delay response w Hin Hn; [lia|].
  cbn [seq]. rewrite summary_loop_step. cbv zeta.
  assert (Hpost : forall a,
             post_or_sleep (json_dumps payload)
               (EvHttpPost GEMINI_URL json_headers (json_dumps payload) a))
    by (intros a; left; now exists a).
  destruct (decide_attempt i response _) as [v|response'|e] eqn:Hd.
  - exists 0. rewrite trace_triple. unfold retries in *.
    split; [lia|]. split; [reflexivity|]. split; [reflexivity|].
    constructor; [apply Hpost|constructor].
  - pose proof (decide_retry_bound _ _ _ _ Hd) as Hlt. unfold retries in *.
    destruct (IH (Datatypes.S i) (delay * 2)%Z response'
                 (time_sleep delay
                    (snd (requests_post GEMINI_URL json_headers
                            (json_dumps payload) w))))
      as (k & Hk & Hc & Hs & Hall); [lia|lia|].
    exists (Datatypes.S k). rewrite trace_triple.
    split; [lia|]. split; [|split].
    + unfold post_count in *. cbn [filter length]. rewrite Hc. lia.
    + unfold sleeps in *. cbn [flat_map app backoff]. now rewrite Hs.
    + constructor; [apply Hpost|]. constructor; [right; now exists delay|].
      exact Hall.
  - exists 0. rewrite trace_triple. unfold retries in *.
    split; [lia|]. split; [reflexivity|]. split; [reflexivity|].
    constructor; [apply Hpost|constructor].
Qed.



(** X6.  Whatever the generation service and the HTTP library do,
    [get_summary_gemini] makes between one and five POSTs, all of the same
    body to the same URL, sleeps 2, 4, 8, 16 in that order between them
    and so at most 30 in all, and does nothing else. *)
Theorem summarizer_budget (transcript : json) (w : World) :
  1 <= post_count (trace (get_summary_gemini transcript w)) <= 5
  /\ sleeps (trace (get_summary_gemini transcript w))
     = firstn (post_count (trace (get_summary_gemini transcript w)) - 1)
              [2; 4; 8; 16]%Z
  /\ (fold_right Z.add 0 (sleeps (trace (get_summary_gemini transcript w)))
      <= 30)%Z
  /\ Forall (post_or_sleep
               (json_dumps (gemini_payload transcript summary_system_prompt)))
            (trace (get_summary_gemini transcript w)).
Proof.
  rewrite get_summary_gemini_run. cbv zeta. rewrite trace_triple.
  destruct (summary_loop_budget
              (gemini_payload transcript summary_system_prompt)
              retries 0 2%Z None w eq_refl)
    as (k & Hk & Hc & Hs & Hall); [unfold retries; lia|].
  rewrite Hc, Hs. unfold retries in Hk. cbn [Nat.add] in Hk.
  replace (k + 1 - 1) with k by lia.
  split; [lia|]. split; [|split; [|exact Hall]].
  - destruct k as [|[|[|[|[|k]]]]]; try reflexivity. lia.
  - destruct k as [|[|[|[|[|k]]]]]; cbn; lia.
Qed.

(** X7.  A first POST that fails without an HTTP status (a connection
    error, a timeout) is not retried: [get_summary_gemini] raises
    "Gemini API call failed: ..." after that one attempt, without
    sleeping. *)
Theorem summarizer_gives_up_on_network_error (transcript : json) (w : World)
    (e : exn) (w1 : World) :
  requests_post GEMINI_URL json_headers
    (json_dumps (gemini_payload transcript summary_system_prompt)) w
  = (inl e, w1) ->
  isinstance e HTTPError = false ->
  get_summary_gemini transcript w
  = (inl (Exc Exception ("Gemini API call failed: " ++ exn_str e)), w1,
     [EvHttpPost GEMINI_URL json_headers
        (json_dumps (gemini_payload transcript summary_system_prompt))
        (inl e)]).
Proof.
  intros Hp He. rewrite get_summary_gemini_run. cbv zeta.
  unfold retries. cbn [seq]. rewrite summary_loop_step. cbv zeta.
  rewrite Hp. cbn [fst snd decide_attempt]. unfold decide_error.
  rewrite He. reflexivity.
Qed.

(** X8.  On a first answer whose status is not an error:
    a JSON object without [candidates] makes [get_summary_gemini] return
    "Summary failed."; an empty list of [candidates] and a body that is
    not JSON make it raise "Gemini API call failed: ..."; in all three
    cases after one POST. *)
Theorem summarizer_on_odd_answers (transcript : json) (w : World)
    (resp : response) (w1 : World) :
  requests_post GEMINI_URL json_headers
    (json_dumps (gemini_payload transcript summary_system_prompt)) w
  = (inr resp, w1) ->
  ~ (400 <= status_code resp < 600)%Z ->
  let posted :=
    [EvHttpPost GEMINI_URL json_headers
       (json_dumps (gemini_payload transcript summary_system_prompt))
       (inr resp)] in
  (forall fields,
      json_result resp = inr (JObj fields) ->
      assoc "candidates" fields = None ->
      get_summary_gemini transcript w
      = (inr (JStr "Summary failed."), w1, posted))
  /\ (forall fields,
      json_result resp = inr (JObj fields) ->
      assoc "candidates" fields = Some (JArr []) ->
      get_summary_gemini transcript w
      = (inl (Exc Exception
                "Gemini API call failed: list index out of range"),
         w1, posted))
  /\ (forall e,
      json_result resp = inl e ->
      isinstance e HTTPError = false ->
      get_summary_gemini transcript w
      = (inl (Exc Exception ("Gemini API call failed: " ++ exn_str e)),
         w1, posted)).
Proof.
  intros Hp Hs posted. subst posted.
  pose proof (raise_for_status_ok resp Hs) as Hok.
  assert (Hrun : get_summary_gemini transcript w =
    match decide_attempt 0 None (inr resp) with
    | Return summary =>
        (inr summary, w1,
         [EvHttpPost GEMINI_URL json_headers
            (json_dumps (gemini_payload transcript summary_system_prompt))
            (inr resp)])
    | Fail e =>
        (inl e, w1,
         [EvHttpPost GEMINI_URL json_headers
            (json_dumps (gemini_payload transcript summary_system_prompt))
            (inr resp)])
    | Retry _ => get_summary_gemini transcript w
    end).
  { destruct (decide_attempt 0 None (inr resp)) eqn:Hd; [| reflexivity |];
      rewrite get_summary_gemini_run; cbv zeta; unfold retries; cbn [seq];
      rewrite summary_loop_step; cbv zeta; rewrite Hp; cbn [fst snd];
      rewrite Hd; reflexivity. }
  split; [|split].
  - intros fields Hj Hc. rewrite Hrun. unfold decide_attempt, summary_of, rbind.
    rewrite Hok, Hj. unfold first_text, rbind, py_get, py_index0.
    rewrite Hc. reflexivity.
  - intros fields Hj Hc. rewrite Hrun. unfold decide_attempt, summary_of, rbind.
    rewrite Hok, Hj. unfold first_text, rbind, py_get, py_index0.
    rewrite Hc. reflexivity.
  - intros e Hj He. rewrite Hrun. unfold decide_attempt, summary_of, rbind.
    rewrite Hok, Hj. unfold decide_error. rewrite He. reflexivity.
Qed.

(** X5.  On an answer whose status is not an error, [translate_text]
    returns "Translation failed: list index out of range" for an empty
    list of [candidates], and the attribute or subscript error of
    [NoneType] for a [candidates] or [content] that is [null]. *)
Theorem translator_on_odd_answers (text source_lang : string) (w : World)
    (resp : response) (fields : list (string * json)) :
  fst (requests_post GEMINI_URL json_headers
         (translation_data text source_lang) w) = inr resp ->
  ~ (400 <= status_code resp < 600)%Z ->
  json_result resp = inr (JObj fields) ->
  (assoc "candidates" fields = Some (JArr []) ->
   outcome (translate_text text source_lang w)
   = inr (JStr "Translation failed: list index out of range"))
  /\ (assoc "candidates" fields = Some JNull ->
      outcome (translate_text text source_lang w)
      = inr (JStr
               "Translation failed: 'NoneType' object is not subscriptable"))
  /\ (forall candidate others,
        assoc "candidates" fields = Some (JArr (JObj candidate :: others)) ->
        assoc "content" candidate = Some JNull ->
        outcome (translate_text text source_lang w)
        = inr (JStr
                 "Translation failed: 'NoneType' object has no attribute 'get'")).
Proof.
  intros Ha Hs Hj. rewrite translate_text_run. cbv zeta.
  rewrite outcome_triple, Ha. unfold translation_value, rbind.
  rewrite (raise_for_status_ok resp Hs), Hj.
  unfold first_text, rbind, py_get, py_index0.
  split; [|split].
  - intros Hc. rewrite Hc. reflexivity.
  - intros Hc. rewrite Hc. reflexivity.
  - intros candidate others Hc Hn. rewrite Hc, Hn. reflexivity.
Qed.

End SummarizerMore.

(** ** The endpoint *)

Section EndpointMore.
Context {svc : Services}.


(** X13.  [summary_api] raises only what [get_video_id] raises, that is,
    when [urlparse] rejects a non-empty [url], and it does so before any
    call.  In every other case it answers: 200 with a body holding the
    single key [summary], or 400, 404 or 500 with a body holding the
    single key [error]. *)
Theorem summary_api_answers_or_rejects_url (url_arg : option string)
    (w : World) :
  (exists url e,
      url_arg = Some url /\ url <> "" /\ get_video_id url = inl e
      /\ summary_api url_arg w = (inl e, w, []))
  \/ (exists body status,
        outcome (summary_api url_arg w) = inr (body, status)
        /\ ((status = 200%Z
             /\ exists summary, body = JObj [("summary", summary)])
            \/ ((status = 400%Z \/ status = 404%Z \/ status = 500%Z)
                /\ exists message, body = error_body message))).
Proof.
  assert (Hno : forall u, truthy u = false ->
            summary_api (Some u) w
            = (inr (error_body "No URL provided.", 400%Z), w, [])).
  { intros u Hu. unfold summary_api. now rewrite Hu. }
  destruct url_arg as [url|].
  - destruct (truthy url) eqn:Hu.
    + destruct (get_video_id url) as [e|[video_id|]] eqn:Hv.
      * left. exists url, e. split; [reflexivity|].
        split; [intros ->; discriminate|]. split; [exact Hv|].
        now apply summary_api_raises.
      * right. rewrite (summary_api_run _ _ w Hu Hv).
        destruct (get_transcript video_id w) as [[[e|transcript] w1] t1].
        -- destruct (isinstance e CouldNotRetrieveTranscript);
             do 2 eexists; rewrite outcome_triple;
             (split; [reflexivity|]); right; split; eauto.
        -- destruct (py_truthy transcript).
           ++ destruct (get_summary_gemini transcript w1)
                as [[[e|summary] w2] t2];
                do 2 eexists; rewrite outcome_triple;
                (split; [reflexivity|]).
              ** right. split; eauto.
              ** left. split; eauto.
           ++ do 2 eexists. rewrite outcome_triple.
              split; [reflexivity|]. right. split; eauto.
      * right. rewrite (summary_api_no_id _ w Hu Hv).
        do 2 eexists. split; [reflexivity|]. right. split; eauto.
    + right. rewrite (Hno url Hu). do 2 eexists. split; [reflexivity|].
      right. split; eauto.
  - right. do 2 eexists. split; [reflexivity|]. right. split; eauto.
Qed.


End EndpointMore.

(** ** The further properties on the example worlds *)

Lemma get_video_id_watch_url_witness :
  get_video_id (svc := services english)
    "https://www.youtube.com/watch?v=dQw4%77+9=WgXcQ"
  = inr (Some "dQw4w 9=WgXcQ")
  /\ get_video_id (svc := services english)
       "https://www.youtube.com/watch?v=dQw4w9WgXcQ"
     = inr (Some "dQw4w9WgXcQ").
Proof.
  split.
  - exact (proj1 (get_video_id_watch_url (svc := services english)
                    "https://www.youtube.com/watch"
                    "dQw4%77+9=WgXcQ" "v=dQw4%77+9=WgXcQ" eq_refl eq_refl
                    (fun H => eq_ind "dQw4%77+9=WgXcQ"
                       (fun s => match s with
                                 | EmptyString => False
                                 | String _ _ => True
                                 end) I "" H)
                    eq_refl eq_refl eq_refl eq_refl eq_refl eq_refl)).
  - exact (proj2 (get_video_id_watch_url (svc := services english)
                    "https://www.youtube.com/watch"
                    "dQw4w9WgXcQ" "v=dQw4w9WgXcQ" eq_refl eq_refl
                    (fun H => eq_ind "dQw4w9WgXcQ"
                       (fun s => match s with
                                 | EmptyString => False
                                 | String _ _ => True
                                 end) I "" H)
                    eq_refl eq_refl eq_refl eq_refl eq_refl eq_refl)
                 eq_refl eq_refl).
Defined.

Lemma get_video_id_short_link_witness :
  get_video_id (svc := services english)
    "https://youtu.be/ABCDEFGHIJKLMNOP?t=3"
  = inr (Some "ABCDEFGHIJK").
Proof.
  refine (get_video_id_short_link (svc := services english)
            "https://" "ABCDEFGHIJK" "LMNOP?t=3" "t=3"
            eq_refl _ eq_refl eq_refl).
  split; reflexivity.
Defined.

Lemma get_video_id_blank_v_witness :
  get_video_id (svc := services english) "https://www.youtube.com/watch?v="
  = inr None
  /\ get_video_id (svc := services english) "https://youtu.be/ABCDEFGHIJK?v"
     = inr (Some "ABCDEFGHIJK").
Proof.
  split.
  - exact (proj1 (get_video_id_blank_v (svc := services english)
                    "https://www.youtube.com/watch" eq_refl eq_refl)
                 "v=" eq_refl).
  - exact (proj1 (proj2 (get_video_id_blank_v (svc := services english)
                           "https://youtu.be/ABCDEFGHIJK" eq_refl eq_refl))
                 "v" eq_refl).
Defined.

Lemma fallback_failures_are_type_errors_witness :
  fst (requests_get (Services := services unreachable)
         (scrape_url "ABCDEFGHIJK") 0)
  = inl connection_refused
  /\ outcome (get_fallback_captions (svc := services unreachable)
                "ABCDEFGHIJK" 0)
     = inl (Exc TypeError
              (missing_arguments_str (Services := services unreachable)))
  /\ isinstance
       (Exc TypeError
          (missing_arguments_str (Services := services unreachable)))
       NoTranscriptFound = false.
Proof.
  destruct (fallback_failures_are_type_errors (svc := services unreachable)
              "ABCDEFGHIJK" 0
              (Exc TypeError
                 (missing_arguments_str (Services := services unreachable)))
              eq_refl) as (_ & Hn & _).
  split; [reflexivity|]. split; [reflexivity|exact Hn].
Defined.

(** The endpoint on a video whose transcripts are disabled and whose
    timed-text document is missing: the scrape's [TypeError] is no
    transcript error, so the answer is 500 and the fixed body. *)
Example summary_api_scrape_failure_is_500 :
  summary_api (svc := services disabled_at_once)
    (Some "https://youtu.be/ABCDEFGHIJK") 0
  = (inr generic_error, 0,
     [EvGetTranscript "ABCDEFGHIJK" ["en"] (inl disabled);
      EvHttpGet (scrape_url "ABCDEFGHIJK")
        (inr (Response 404 "" "Not Found" "" (inl not_json)));
      EvPrint ("Internal Error: "
               ++ missing_arguments_str (Services := services disabled_at_once))]).
Proof. reflexivity. Qed.

(** The endpoint on a URL [urlparse] rejects: nothing is answered. *)
Example summary_api_rejected_url :
  summary_api (svc := services english) (Some "http://[::1/watch?v=abc") 0
  = (inl (value_error "Invalid IPv6 URL"), 0, []).
Proof. reflexivity. Qed.

Lemma fallback_captions_empty_iff_witness :
  (outcome (get_fallback_captions (svc := services (scrape no_lines))
              "ABCDEFGHIJK" 0) = inr ""
   <-> forall node,
         In node (findall (Element "transcript" None []) "text") ->
         text_of node = None \/ text_of node = Some "")
  /\ (exists node line,
        In node (findall (Element "transcript" None
                            [Element "text" (Some "a") [];
                             Element "text" (Some "b") []]) "text")
        /\ text_of node = Some line /\ line <> "").
Proof.
  split.
  - exact (proj1 (fallback_captions_empty_iff
                    (svc := services (scrape no_lines)) "ABCDEFGHIJK" 0
                    (Response 200 no_lines "OK" "" (inl not_json))
                    (Element "transcript" None [])
                    eq_refl eq_refl eq_refl eq_refl)).
  - refine (proj2 (fallback_captions_empty_iff
                     (svc := services (scrape two_lines)) "ABCDEFGHIJK" 0
                     (Response 200 two_lines "OK" "" (inl not_json))
                     (Element "transcript" None
                        [Element "text" (Some "a") [];
                         Element "text" (Some "b") []])
                     eq_refl eq_refl eq_refl eq_refl)
                  "a b" eq_refl _).
    discriminate.
Defined.

Lemma track_fetch_failure_propagates_witness :
  get_transcript (svc := services french_unfetchable) "ABCDEFGHIJK" 0
  = (inl blocked, 0,
     [EvGetTranscript "ABCDEFGHIJK" ["en"] (inl no_transcript);
      EvGetTranscript "ABCDEFGHIJK" ["a.en"] (inl no_transcript);
      EvListTranscripts "ABCDEFGHIJK" (inr [english_track; french_track]);
      EvFetch french_track (inl blocked)]).
Proof.
  exact (track_fetch_failure_propagates (svc := services french_unfetchable)
           "ABCDEFGHIJK" 0 no_transcript no_transcript blocked 0 0 0 0
           [english_track; french_track] french_track
           eq_refl eq_refl eq_refl eq_refl eq_refl eq_refl eq_refl).
Defined.

Lemma first_request_failures_witness :
  get_transcript (svc := services blocked_at_once) "ABCDEFGHIJK" 0
  = (inl (Exc CouldNotRetrieveTranscript
            (could_not_retrieve_str (Services := services blocked_at_once)
               "Transcript Error: Could not retrieve transcript for video (ID: ABCDEFGHIJK). Reason: Request to YouTube failed: 429 Client Error")),
     0, [EvGetTranscript "ABCDEFGHIJK" ["en"] (inl blocked)])
  /\ get_transcript (svc := services unreachable) "ABCDEFGHIJK" 0
     = (inl connection_refused, 0,
        [EvGetTranscript "ABCDEFGHIJK" ["en"] (inl connection_refused)]).
Proof.
  split.
  - refine (first_request_failures (svc := services blocked_at_once)
              "ABCDEFGHIJK" 0 blocked 0 eq_refl _ _); discriminate.
  - refine (first_request_failures (svc := services unreachable)
              "ABCDEFGHIJK" 0 connection_refused 0 eq_refl _ _); discriminate.
Defined.

Lemma failed_translation_becomes_the_transcript_witness :
  outcome (get_transcript (svc := services french_offline) "ABCDEFGHIJK" 0)
  = inr (JStr "Translation failed: Connection refused")
  /\ py_truthy (JStr "Translation failed: Connection refused") = true.
Proof.
  exact (proj2 (failed_translation_becomes_the_transcript
                  (svc := services french_offline) "ABCDEFGHIJK" 0
                  no_transcript no_transcript 0 0 0 0
                  [english_track; french_track] french_track
                  [Segment "Bonjour"; Segment "le"; Segment "monde"]
                  eq_refl eq_refl eq_refl eq_refl eq_refl eq_refl eq_refl)
               connection_refused eq_refl).
Defined.

Lemma summarizer_gives_up_on_network_error_witness :
  get_summary_gemini (svc := services offline) (JStr "Hello world") 0
  = (inl (Exc Exception "Gemini API call failed: Connection refused"), 1,
     [EvHttpPost GEMINI_URL json_headers "<payload>"
        (inl connection_refused)]).
Proof.
  exact (summarizer_gives_up_on_network_error (svc := services offline)
           (JStr "Hello world") 0 connection_refused 1 eq_refl eq_refl).
Defined.

Lemma summarizer_on_odd_answers_witness :
  get_summary_gemini (svc := services french_empty_answer)
    (JStr "Hello world") 0
  = (inr (JStr "Summary failed."), 1,
     [EvHttpPost GEMINI_URL json_headers "<payload>"
        (inr (http 200 "OK" "{}" (inr (JObj []))))])
  /\ get_summary_gemini (svc := services no_candidates) (JStr "Hello world") 0
     = (inl (Exc Exception "Gemini API call failed: list index out of range"),
        1,
        [EvHttpPost GEMINI_URL json_headers "<payload>"
           (inr (http 200 "OK" "{...}"
                   (inr (JObj [("candidates", JArr [])]))))]).
Proof.
  split.
  - refine (proj1 (summarizer_on_odd_answers
                     (svc := services french_empty_answer)
                     (JStr "Hello world") 0
                     (http 200 "OK" "{}" (inr (JObj []))) 1 eq_refl _)
                  [] eq_refl eq_refl).
    cbn. lia.
  - refine (proj1 (proj2 (summarizer_on_odd_answers
                            (svc := services no_candidates)
                            (JStr "Hello world") 0
                            (http 200 "OK" "{...}"
                               (inr (JObj [("candidates", JArr [])])))
                            1 eq_refl _))
                  [("candidates", JArr [])] eq_refl eq_refl).
    cbn. lia.
Defined.

Lemma translator_on_odd_answers_witness :
  outcome (translate_text (svc := services no_candidates)
             "Bonjour le monde" "French" 0)
  = inr (JStr "Translation failed: list index out of range").
Proof.
  refine (proj1 (translator_on_odd_answers (svc := services no_candidates)
                   "Bonjour le monde" "French" 0
                   (http 200 "OK" "{...}"
                      (inr (JObj [("candidates", JArr [])])))
                   [("candidates", JArr [])] eq_refl _ eq_refl)
                eq_refl).
  cbn. lia.
Defined.

